(** * python_project_setup: a shallow embedding of the bootstrap kit

    The repository has three small components and one example script:
    - [utils/path_setup.py]      : [PathSetup.add_project_root_to_sys_path]
    - [utils/logging_wrapper.py] : [LoggingWrapper]
    - [utils/env_manager.py]     : [EnvManager]
    - [scripts/example_script.py]: [do_something]

    Python objects live in one process state ([World]); every method is a
    function in a state-and-exception monad over it.  The interpreter and
    library facilities the code calls ([os.path], [logging], [object.__new__],
    [int], [dotenv.load_dotenv]) are modelled next to the code that uses
    them, each with a comment naming the facility. *)

From Stdlib Require Import ZArith Ascii String List Bool Lia.
From stdpp Require Import base decidable option list strings gmap pretty.

Import ListNotations.
Open Scope string_scope.
Open Scope list_scope.
Open Scope Z_scope.

(* ===================================================================== *)
(** * Characters and paths ([os.path], POSIX flavour)                     *)
(* ===================================================================== *)

Module PosixPath.

Definition sep : ascii := "/"%char.

Definition is_sep (c : ascii) : bool := Ascii.eqb c sep.

(** [p[:p.rfind('/') + 1]]: the longest prefix of [p] that ends with a
    separator, empty when [p] has none. *)
Fixpoint upto_last_sep (p : list ascii) : list ascii :=
  match p with
  | [] => []
  | c :: r =>
      match upto_last_sep r with
      | [] => if is_sep c then [c] else []
      | h => c :: h
      end
  end.

(** [s.rstrip('/')] *)
Fixpoint rstrip_sep (s : list ascii) : list ascii :=
  match s with
  | [] => []
  | c :: r =>
      match rstrip_sep r with
      | [] => if is_sep c then [] else [c]
      | t => c :: t
      end
  end.

(** [posixpath.dirname]:
    [i = p.rfind('/') + 1; head = p[:i];
     if head and head != '/'*len(head): head = head.rstrip('/')] *)
Definition dirname (p : string) : string :=
  let head := upto_last_sep (list_ascii_of_string p) in
  string_of_list_ascii
    (if forallb is_sep head then head else rstrip_sep head).

(** [posixpath.join(a, b)] for a relative second component [b]. *)
Definition join (a b : string) : string :=
  match rev (list_ascii_of_string a) with
  | [] => b
  | c :: _ => if is_sep c then a +:+ b else a +:+ "/" +:+ b
  end.

End PosixPath.

(* ===================================================================== *)
(** * utils/path_setup.py                                                 *)
(* ===================================================================== *)

Module PathSetup.

(** [os.path.dirname(os.path.dirname(os.path.abspath(__file__)))].
    [abs_file] is the value of [os.path.abspath(__file__)]. *)
Definition project_root (abs_file : string) : string :=
  let current_dir := PosixPath.dirname abs_file in
  PosixPath.dirname current_dir.

(** The method acts on [sys.path] only; the list is passed in and the
    updated list is returned. *)
Definition add_project_root_to_sys_path
    (abs_file : string) (sys_path : list string) : list string :=
  let project_root := project_root abs_file in
  if bool_decide (project_root ∈ sys_path)
  then sys_path
  else project_root :: sys_path.

(** Number of entries of the search path equal to [x]. *)
Definition occurrences (x : string) (sys_path : list string) : nat :=
  length (filter (λ y, y = x) sys_path).

End PathSetup.

(* ===================================================================== *)
(** * Exceptions                                                          *)
(* ===================================================================== *)

(** The exception classes that occur in the code.  [RuntimeError] carries
    the exception it was raised [from] (its [__cause__]).  [BaseOnly]
    stands for the classes that derive from [BaseException] but not from
    [Exception] ([KeyboardInterrupt], [SystemExit]): an [except Exception]
    clause lets them through. *)
Inductive PyExc : Type :=
| TypeError (msg : string)
| ValueError (msg : string)
| RuntimeError (msg : string) (cause : PyExc)
| OtherException (cls msg : string)
| BaseOnly (cls msg : string).

(** [isinstance(e, Exception)] *)
Definition is_Exception (e : PyExc) : bool :=
  match e with
  | BaseOnly _ _ => false
  | _ => true
  end.

(** [isinstance(e, ValueError)] *)
Definition is_ValueError (e : PyExc) : bool :=
  match e with
  | ValueError _ => true
  | _ => false
  end.

(** [str(e)] *)
Definition exc_str (e : PyExc) : string :=
  match e with
  | TypeError m | ValueError m | RuntimeError m _
  | OtherException _ m | BaseOnly _ m => m
  end.

(** [e.__cause__] *)
Definition exc_cause (e : PyExc) : option PyExc :=
  match e with
  | RuntimeError _ c => Some c
  | _ => None
  end.

(** The outcome of a call: a value or a raised exception. *)
Inductive Result (A : Type) : Type :=
| Return (a : A)
| Raise (e : PyExc).
Arguments Return {A} a.
Arguments Raise {A} e.

(** [f"{x}"] for a value that is a [str] or [None]. *)
Definition str_opt (x : option string) : string :=
  match x with
  | Some s => s
  | None => "None"
  end.

(* ===================================================================== *)
(** * The standard [logging] module, as far as the wrapper uses it        *)
(* ===================================================================== *)

Module Logging.

Definition NOTSET : Z := 0.
Definition DEBUG : Z := 10.
Definition INFO : Z := 20.
Definition WARNING : Z := 30.
Definition ERROR : Z := 40.
Definition CRITICAL : Z := 50.

Inductive HandlerKind : Type :=
| RotatingFile (filename : string) (maxBytes backupCount : Z)
| Stream
| LastResort.

(** A handler object; [h_id] is its identity. *)
Record Handler : Type := mkHandler {
  h_id : nat;
  h_kind : HandlerKind;
  h_level : Z;
  h_formatter : option string
}.

Record Logger : Type := mkLogger {
  lg_level : Z;
  lg_handlers : list Handler;
  lg_propagate : bool
}.

Record LogRecord : Type := mkRecord {
  rec_name : string;
  rec_levelno : Z;
  rec_msg : string
}.

(** The part of the process state that logging reads and writes:
    - [loggers]: the logger objects by name, the root under ["root"];
    - [fs_paths]: the paths for which [os.path.exists] is true;
    - [clock], [ticks]: [clock k] is what the [k]-th call of
      [datetime.now().strftime('%Y%m%d_%H%M%S')] returns;
    - [next_id]: the identity given to the next handler object;
    - [log_calls]: the calls of [debug] .. [critical], in order;
    - [sink_out]: the records the handlers emitted, in order. *)
Record LogState : Type := mkLogState {
  loggers : gmap string Logger;
  fs_paths : gset string;
  clock : nat → string;
  ticks : nat;
  next_id : nat;
  log_calls : list LogRecord;
  sink_out : list (Handler * LogRecord)
}.

Definition set_loggers (f : gmap string Logger → gmap string Logger)
    (st : LogState) : LogState :=
  mkLogState (f (loggers st)) (fs_paths st) (clock st) (ticks st)
             (next_id st) (log_calls st) (sink_out st).

(** [getLogger] of the empty name and of the name [root] is the root
    logger. *)
Definition logger_key (name : string) : string :=
  if bool_decide (name = EmptyString) then "root" else name.

(** A logger as [getLogger] creates it; the root starts at [WARNING]. *)
Definition fresh_logger (key : string) : Logger :=
  mkLogger (if bool_decide (key = "root") then WARNING else NOTSET) [] true.

Definition logger_at (reg : gmap string Logger) (key : string) : Logger :=
  default (fresh_logger key) (reg !! key).

(** [logging.getLogger(name)]: the existing logger or a new one. *)
Definition getLogger (name : string) (st : LogState) : string * LogState :=
  let key := logger_key name in
  (key, set_loggers (λ reg, <[key := logger_at reg key]> reg) st).

(** [logger.setLevel(level)] *)
Definition setLevel (key : string) (level : Z) (st : LogState) : LogState :=
  set_loggers
    (λ reg, let lg := logger_at reg key in
            <[key := mkLogger level (lg_handlers lg) (lg_propagate lg)]> reg)
    st.

(** [logger.addHandler(h)]: appended unless already in the list. *)
Definition addHandler (key : string) (h : Handler) (st : LogState)
    : LogState :=
  set_loggers
    (λ reg, let lg := logger_at reg key in
            if bool_decide (h_id h ∈ map h_id (lg_handlers lg)) then reg
            else <[key := mkLogger (lg_level lg) (lg_handlers lg ++ [h])
                                   (lg_propagate lg)]> reg)
    st.

(** [name.rfind('.', 0, hi)] *)
Fixpoint rfind_dot (l : list ascii) (hi : nat) : option nat :=
  match hi with
  | O => None
  | S h =>
      match l !! h with
      | Some c => if Ascii.eqb c "."%char then Some h else rfind_dot l h
      | None => rfind_dot l h
      end
  end.

(** The loop of [Manager._fixupParents]: the prefixes [name[:i]] it
    visits, longest first ([i = name.rfind('.')], then
    [i = name.rfind('.', 0, i - 1)], while [i > 0]). *)
Fixpoint prefixes_loop (fuel : nat) (l : list ascii) (i : option nat)
    : list string :=
  match fuel with
  | O => []
  | S f =>
      match i with
      | Some (S i') =>
          string_of_list_ascii (take (S i') l)
          :: prefixes_loop f l (rfind_dot l i')
      | _ => []
      end
  end.

Definition ancestor_names (name : string) : list string :=
  let l := list_ascii_of_string name in
  prefixes_loop (length l) l (rfind_dot l (length l)).

(** The [parent] links from a logger up to the root: the ancestors that
    exist as loggers, nearest first, then the root. *)
Definition parents (reg : gmap string Logger) (key : string)
    : list string :=
  if bool_decide (key = "root") then []
  else filter (λ k, k ≠ "root" ∧ is_Some (reg !! k)) (ancestor_names key)
       ++ ["root"].

(** [Logger.getEffectiveLevel]: the first level that is set on the way
    up, [NOTSET] if none. *)
Fixpoint first_level (reg : gmap string Logger) (keys : list string) : Z :=
  match keys with
  | [] => NOTSET
  | k :: rest =>
      let lv := lg_level (logger_at reg k) in
      if bool_decide (lv = 0) then first_level reg rest else lv
  end.

Definition getEffectiveLevel (reg : gmap string Logger) (key : string) : Z :=
  first_level reg (key :: parents reg key).

(** [Logger.isEnabledFor] with [logging.disable] at its default. *)
Definition isEnabledFor (reg : gmap string Logger) (key : string)
    (level : Z) : bool :=
  bool_decide (getEffectiveLevel reg key ≤ level).

(** The handlers [Logger.callHandlers] visits: those of the logger, then
    of each parent while [propagate] is set. *)
Fixpoint visited_handlers (reg : gmap string Logger) (keys : list string)
    : list Handler :=
  match keys with
  | [] => []
  | k :: rest =>
      let lg := logger_at reg k in
      lg_handlers lg
      ++ (if lg_propagate lg then visited_handlers reg rest else [])
  end.

(** [logging.lastResort]: a stderr handler at [WARNING], used when no
    handler was found at all. *)
Definition lastResort : Handler := mkHandler 0 LastResort WARNING None.

(** [Logger.callHandlers(record)]: the handlers that emit the record. *)
Definition callHandlers (reg : gmap string Logger) (key : string)
    (r : LogRecord) : list Handler :=
  let hs := visited_handlers reg (key :: parents reg key) in
  filter (λ h, h_level h ≤ rec_levelno r)
         (match hs with [] => [lastResort] | _ => hs end).

(** [logger.log(level, msg)], the body shared by [logger.debug] ..
    [logger.critical]. *)
Definition log (key : string) (level : Z) (msg : string) (st : LogState)
    : LogState :=
  let r := mkRecord key level msg in
  let emitted :=
    if isEnabledFor (loggers st) key level
    then map (λ h, (h, r)) (callHandlers (loggers st) key r)
    else [] in
  mkLogState (loggers st) (fs_paths st) (clock st) (ticks st) (next_id st)
             (log_calls st ++ [r]) (sink_out st ++ emitted).

Definition debug := λ key, log key DEBUG.
Definition info := λ key, log key INFO.
Definition warning := λ key, log key WARNING.
Definition error := λ key, log key ERROR.
Definition critical := λ key, log key CRITICAL.

End Logging.

(* ===================================================================== *)
(** * utils/logging_wrapper.py                                            *)
(* ===================================================================== *)

Module LoggingWrapper.
Import Logging.

(** The default values of the keyword parameters of [__init__]. *)
Definition default_log_dir : string := "logs".
Definition default_log_level : Z := DEBUG.
Definition default_console_level : Z := ERROR.
Definition default_max_bytes : Z := 5 * 1024 * 1024.
Definition default_backup_count : Z := 5.

Definition FORMAT : string :=
  "%(asctime)s - %(name)s - %(levelname)s - %(message)s".

(** The arguments of a construction after [name]; [None] is an argument
    that the caller left out. *)
Record InitArgs : Type := mkInitArgs {
  log_dir : option string;
  log_level : option Z;
  console_level : option Z;
  max_bytes : option Z;
  backup_count : option Z
}.

Definition only_name : InitArgs := mkInitArgs None None None None None.

(** [os.path.exists(d)] followed by [os.makedirs(d)] when it is false. *)
Definition ensure_dir (d : string) (st : LogState) : LogState :=
  if bool_decide (d ∈ fs_paths st) then st
  else mkLogState (loggers st) ({[d]} ∪ fs_paths st) (clock st) (ticks st)
                  (next_id st) (log_calls st) (sink_out st).

(** [datetime.now().strftime('%Y%m%d_%H%M%S')] *)
Definition now (st : LogState) : string * LogState :=
  (clock st (ticks st),
   mkLogState (loggers st) (fs_paths st) (clock st) (S (ticks st))
              (next_id st) (log_calls st) (sink_out st)).

(** [RotatingFileHandler(log_file, maxBytes=.., backupCount=..)]: a new
    handler object at level [NOTSET]; the file is opened, so it exists
    afterwards. *)
Definition new_RotatingFileHandler (log_file : string) (mb bc : Z)
    (st : LogState) : Handler * LogState :=
  (mkHandler (next_id st) (RotatingFile log_file mb bc) NOTSET None,
   mkLogState (loggers st) ({[log_file]} ∪ fs_paths st) (clock st)
              (ticks st) (S (next_id st)) (log_calls st) (sink_out st)).

(** [logging.StreamHandler()] *)
Definition new_StreamHandler (st : LogState) : Handler * LogState :=
  (mkHandler (next_id st) Stream NOTSET None,
   mkLogState (loggers st) (fs_paths st) (clock st) (ticks st)
              (S (next_id st)) (log_calls st) (sink_out st)).

(** [h.setLevel(level); h.setFormatter(formatter)] on a handler that is
    not attached to any logger yet. *)
Definition configure (h : Handler) (level : Z) (fmt : string) : Handler :=
  mkHandler (h_id h) (h_kind h) level (Some fmt).

(** [LoggingWrapper.__init__]; the result is [self.logger]. *)
Definition init (name : string) (a : InitArgs) (st : LogState)
    : string * LogState :=
  let log_dir := default default_log_dir (log_dir a) in
  let log_level := default default_log_level (log_level a) in
  let console_level := default default_console_level (console_level a) in
  let max_bytes := default default_max_bytes (max_bytes a) in
  let backup_count := default default_backup_count (backup_count a) in
  let '(logger, st) := getLogger name st in
  let st := setLevel logger DEBUG st in
  let formatter := FORMAT in
  let st := ensure_dir log_dir st in
  let '(now, st) := now st in
  let log_file := PosixPath.join log_dir ("log_" +:+ now +:+ ".log") in
  let '(fh, st) := new_RotatingFileHandler log_file max_bytes backup_count st in
  let fh := configure fh log_level formatter in
  let '(ch, st) := new_StreamHandler st in
  let ch := configure ch console_level formatter in
  if bool_decide (lg_handlers (logger_at (loggers st) logger) = [])
  then (logger, addHandler logger ch (addHandler logger fh st))
  else (logger, st).

(** The two handler objects a construction creates in state [st]. *)
Definition file_sink (a : InitArgs) (st : LogState) : Handler :=
  mkHandler (next_id st)
    (RotatingFile
       (PosixPath.join (default default_log_dir (log_dir a))
                       ("log_" +:+ clock st (ticks st) +:+ ".log"))
       (default default_max_bytes (max_bytes a))
       (default default_backup_count (backup_count a)))
    (default default_log_level (log_level a)) (Some FORMAT).

Definition console_sink (a : InitArgs) (st : LogState) : Handler :=
  mkHandler (S (next_id st)) Stream
    (default default_console_level (console_level a)) (Some FORMAT).

(** The methods [debug] .. [critical] forward to [self.logger]. *)
Definition debug (self_logger : string) := Logging.debug self_logger.
Definition info (self_logger : string) := Logging.info self_logger.
Definition warning (self_logger : string) := Logging.warning self_logger.
Definition error (self_logger : string) := Logging.error self_logger.
Definition critical (self_logger : string) := Logging.critical self_logger.

End LoggingWrapper.

(* ===================================================================== *)
(** * The process state and the monad of Python calls                     *)
(* ===================================================================== *)

(** What one call of [dotenv.load_dotenv(path)] does: it returns a truth
    value or raises, and in both cases it may have written to
    [os.environ]. *)
Inductive DotenvOutcome : Type :=
| DotenvReturn (found : bool) (env' : gmap string string)
| DotenvRaise (e : PyExc) (env' : gmap string string).

(** The process state:
    - [environ]: [os.environ];
    - [dotenv_fs]: the files as [load_dotenv] sees them, given by what a
      call with a path does to an environment;
    - [dotenv_reads]: the paths [load_dotenv] was called with, in order;
    - [_instance], [_env_loaded]: the class attributes of [EnvManager];
    - [heap_next]: the identity given to the next [EnvManager] object;
    - [logging]: the state of the logging module. *)
Record World : Type := mkWorld {
  environ : gmap string string;
  dotenv_fs : string → gmap string string → DotenvOutcome;
  dotenv_reads : list string;
  _instance : option nat;
  _env_loaded : bool;
  heap_next : nat;
  logging : Logging.LogState
}.

Definition M (A : Type) : Type := World → Result A * World.

Definition ret {A} (a : A) : M A := λ w, (Return a, w).

Definition raise {A} (e : PyExc) : M A := λ w, (Raise e, w).

Definition bind {A B} (m : M A) (k : A → M B) : M B :=
  λ w, match m w with
       | (Return a, w') => k a w'
       | (Raise e, w') => (Raise e, w')
       end.

Declare Scope py_scope.
Delimit Scope py_scope with py.
Notation "x <- m ;; k" := (bind m (λ x, k))
  (at level 100, m at next level, right associativity) : py_scope.
Notation "m ;;; k" := (bind m (λ _, k))
  (at level 100, right associativity) : py_scope.
Open Scope py_scope.

(** [try: body  except <classes> as e: handler e]; [handler e] is [None]
    for an exception that no [except] clause matches. *)
Definition try_except {A} (body : M A) (handler : PyExc → option (M A))
    : M A :=
  λ w, match body w with
       | (Return a, w') => (Return a, w')
       | (Raise e, w') =>
           match handler e with
           | Some h => h w'
           | None => (Raise e, w')
           end
       end.

(** A call of a logger method from the monad. *)
Definition with_logging (f : Logging.LogState → Logging.LogState) : M unit :=
  λ w, (Return tt,
        mkWorld (environ w) (dotenv_fs w) (dotenv_reads w) (_instance w)
                (_env_loaded w) (heap_next w) (f (logging w))).

(** [dotenv.load_dotenv(file_path)] *)
Definition load_dotenv (file_path : string) : M bool :=
  λ w, let reads := dotenv_reads w ++ [file_path] in
       match dotenv_fs w file_path (environ w) with
       | DotenvReturn b env' =>
           (Return b,
            mkWorld env' (dotenv_fs w) reads (_instance w) (_env_loaded w)
                    (heap_next w) (logging w))
       | DotenvRaise e env' =>
           (Raise e,
            mkWorld env' (dotenv_fs w) reads (_instance w) (_env_loaded w)
                    (heap_next w) (logging w))
       end.

(** The arguments of a call, positional and keyword. *)
Record CallArgs : Type := mkArgs {
  args : list string;
  kwargs : list (string * string)
}.

Definition no_args : CallArgs := mkArgs [] [].

Definition excess_args (a : CallArgs) : bool :=
  negb (bool_decide (args a = []) && bool_decide (kwargs a = [])).

(** [object.__new__(cls, *args, **kwargs)] for a class that overrides
    [__new__]: any argument besides the class is a [TypeError]. *)
Definition object_new (a : CallArgs) : M nat :=
  λ w, if excess_args a
       then (Raise (TypeError
               "object.__new__() takes exactly one argument (the type to instantiate)"),
             w)
       else (Return (heap_next w),
             mkWorld (environ w) (dotenv_fs w) (dotenv_reads w) (_instance w)
                     (_env_loaded w) (S (heap_next w)) (logging w)).

(* ===================================================================== *)
(** * utils/env_manager.py                                                *)
(* ===================================================================== *)

Module EnvManager.

(** [__name__] of the module, the name of its logger. *)
Definition module_name : string := "utils.env_manager".

(** [logger = LoggingWrapper(__name__).logger], run when the module is
    imported. *)
Definition import_module : M unit :=
  with_logging (λ st, snd (LoggingWrapper.init module_name
                                               LoggingWrapper.only_name st)).

Definition logger : string := Logging.logger_key module_name.

Definition set_instance (o : nat) : M unit :=
  λ w, (Return tt,
        mkWorld (environ w) (dotenv_fs w) (dotenv_reads w) (Some o)
                (_env_loaded w) (heap_next w) (logging w)).

Definition set_env_loaded (b : bool) : M unit :=
  λ w, (Return tt,
        mkWorld (environ w) (dotenv_fs w) (dotenv_reads w) (_instance w)
                b (heap_next w) (logging w)).

(** [__new__(cls, *args, **kwargs)] *)
Definition new (a : CallArgs) : M nat :=
  λ w, match _instance w with
       | None =>
           (o <- object_new a ;;
            set_instance o ;;;
            ret o) w
       | Some o => (Return o, w)
       end.

(** [load_env(self, file_path)] *)
Definition load_env (file_path : string) : M unit :=
  λ w, if negb (_env_loaded w)
       then
         try_except
           (found <- load_dotenv file_path ;;
            (if found
             then with_logging (Logging.info logger
                    ("Environment variables loaded from " +:+ file_path))
             else with_logging (Logging.warning logger
                    ("No environment variables found in " +:+ file_path))) ;;;
            set_env_loaded true)
           (λ e, if is_Exception e
                 then Some
                   (with_logging (Logging.error logger
                      ("Error loading environment variables from "
                       +:+ file_path +:+ ": " +:+ exc_str e)) ;;;
                    raise (RuntimeError
                      ("Failed to load environment variables from "
                       +:+ file_path) e))
                 else None)
           w
       else (Return tt, w).

(** Binding of the arguments of [__init__(self, file_path='.env')]. *)
Definition bind_init (a : CallArgs) : Result string :=
  match args a, kwargs a with
  | [], [] => Return ".env"
  | [p], [] => Return p
  | [], [(k, p)] =>
      if bool_decide (k = "file_path") then Return p
      else Raise (TypeError
             ("EnvManager.__init__() got an unexpected keyword argument '"
              +:+ k +:+ "'"))
  | [_], (k, _) :: _ =>
      if bool_decide (k = "file_path")
      then Raise (TypeError
             "EnvManager.__init__() got multiple values for argument 'file_path'")
      else Raise (TypeError
             ("EnvManager.__init__() got an unexpected keyword argument '"
              +:+ k +:+ "'"))
  | [], _ :: _ :: _ =>
      Raise (TypeError
        "EnvManager.__init__() got an unexpected keyword argument")
  | _ :: _ :: _, _ =>
      Raise (TypeError
        "EnvManager.__init__() takes from 1 to 2 positional arguments")
  end.

(** [__init__(self, file_path='.env')] *)
Definition init (self : nat) (a : CallArgs) : M unit :=
  match bind_init a with
  | Raise e => raise e
  | Return file_path =>
      λ w, if negb (_env_loaded w)
           then load_env file_path w
           else (Return tt, w)
  end.

(** [EnvManager(...)], that is [type.__call__]: [__new__],
    then [__init__] on its result, which is returned. *)
Definition construct (a : CallArgs) : M nat :=
  self <- new a ;;
  init self a ;;;
  ret self.

(** [os.getenv(name, default)] *)
Definition getenv (name : string) (default : option string)
    : M (option string) :=
  λ w, (Return (match environ w !! name with
                | Some v => Some v
                | None => default
                end), w).

(** [get_env_variable(name, default=None)] (static) *)
Definition get_env_variable (name : string) (default : option string)
    : M (option string) :=
  try_except
    (value <- getenv name default ;;
     (if value is None
      then with_logging (Logging.warning logger
             ("Environment variable " +:+ name
              +:+ " not found, using default value: " +:+ str_opt default))
      else ret tt) ;;;
     ret value)
    (λ e, if is_Exception e
          then Some
            (with_logging (Logging.error logger
               ("Error getting environment variable " +:+ name +:+ ": "
                +:+ exc_str e)) ;;;
             raise (RuntimeError
               ("Failed to get environment variable " +:+ name) e))
          else None).

(** A sequence of construction requests, one after the other; an
    exception of one request does not stop the caller from making the
    next. *)
Fixpoint constructions (reqs : list CallArgs) (w : World)
    : list (Result nat) * World :=
  match reqs with
  | [] => ([], w)
  | a :: rest =>
      let '(r, w') := construct a w in
      let '(rs, w'') := constructions rest w' in
      (r :: rs, w'')
  end.

End EnvManager.

(* ===================================================================== *)
(** * The builtins [int], [str] and [repr] on the values the script uses   *)
(* ===================================================================== *)

Module Builtins.

Definition code (c : ascii) : N := N_of_ascii c.

(** The ASCII characters for which [str.isspace] holds. *)
Definition is_space (c : ascii) : bool :=
  let n := code c in
  ((9 <=? n) && (n <=? 13) || (28 <=? n) && (n <=? 32))%N.

Definition is_digit (c : ascii) : bool :=
  let n := code c in ((48 <=? n) && (n <=? 57))%N.

Definition digit_val (c : ascii) : Z := Z.of_N (code c) - 48.

Fixpoint lstrip (l : list ascii) : list ascii :=
  match l with
  | c :: r => if is_space c then lstrip r else l
  | [] => []
  end.

Definition strip (l : list ascii) : list ascii :=
  rev (lstrip (rev (lstrip l))).

(** Decimal digits, with single underscores allowed between two digits.
    [after_digit] says that the previous character was a digit. *)
Fixpoint digits_loop (acc : Z) (after_digit : bool) (l : list ascii)
    : option Z :=
  match l with
  | [] => if after_digit then Some acc else None
  | c :: r =>
      if is_digit c then digits_loop (10 * acc + digit_val c) true r
      else if Ascii.eqb c "_"%char && after_digit
           then digits_loop acc false r
           else None
  end.

(** [int(s)] for a [str] of ASCII characters: surrounding whitespace, an
    optional sign, decimal digits.  [None] is a [ValueError].  The
    conversion is the unbounded one: the interpreter's optional cap on the
    number of digits is left at "no limit". *)
Definition py_int (s : string) : option Z :=
  match strip (list_ascii_of_string s) with
  | c :: r =>
      if Ascii.eqb c "-"%char then Z.opp <$> digits_loop 0 false r
      else if Ascii.eqb c "+"%char then digits_loop 0 false r
      else digits_loop 0 false (c :: r)
  | [] => None
  end.

Definition hex_digit (n : N) : ascii :=
  if (n <? 10)%N then ascii_of_N (48 + n) else ascii_of_N (87 + n).

(** One character of [repr(s)] with [q] as the enclosing quote. *)
Definition repr_char (q : ascii) (c : ascii) : list ascii :=
  let n := code c in
  if Ascii.eqb c q || Ascii.eqb c "\"%char then ["\"%char; c]
  else if (n =? 9)%N then ["\"%char; "t"%char]
  else if (n =? 10)%N then ["\"%char; "n"%char]
  else if (n =? 13)%N then ["\"%char; "r"%char]
  else if (n <? 32)%N || (n =? 127)%N
       then ["\"%char; "x"%char; hex_digit (n / 16); hex_digit (n mod 16)]
       else [c].

Definition squote : ascii := "'"%char.
Definition dquote : ascii := ascii_of_N 34.

(** [repr(s)] for a [str] of ASCII characters: single quotes, unless the
    string has a single quote and no double quote. *)
Definition py_repr (s : string) : string :=
  let l := list_ascii_of_string s in
  let q := if existsb (Ascii.eqb squote) l
              && negb (existsb (Ascii.eqb dquote) l)
           then dquote else squote in
  string_of_list_ascii (q :: flat_map (repr_char q) l ++ [q]).

(** [int(x)] where [x] is a [str] or [None]. *)
Definition int (x : option string) : M Z :=
  match x with
  | None =>
      raise (TypeError
        "int() argument must be a string, a bytes-like object or a real number, not 'NoneType'")
  | Some s =>
      match py_int s with
      | Some n => ret n
      | None =>
          raise (ValueError
            ("invalid literal for int() with base 10: " +:+ py_repr s))
      end
  end.

(** [str(n)] for an [int], as an f-string inserts it. *)
Definition str_int (n : Z) : string := pretty n.

End Builtins.

(* ===================================================================== *)
(** * scripts/example_script.py                                           *)
(* ===================================================================== *)

Module ExampleScript.

(** The two module-level statements; [name] is the script's [__name__].
    [logger = LoggingWrapper(__name__).logger] and
    [env_manager = EnvManager()]. *)
Definition import_module (name : string) : M nat :=
  with_logging (λ st, snd (LoggingWrapper.init name
                                               LoggingWrapper.only_name st)) ;;;
  EnvManager.construct no_args.

(** [do_something()]; [name] is the script's [__name__], so that
    [Logging.logger_key name] is its [logger]. *)
Definition do_something (name : string) : M unit :=
  let logger := Logging.logger_key name in
  try_except
    (number1 <- EnvManager.get_env_variable "NUMBER1" (Some "10") ;;
     number2 <- EnvManager.get_env_variable "NUMBER2" (Some "5") ;;
     num1 <- Builtins.int number1 ;;
     num2 <- Builtins.int number2 ;;
     with_logging (Logging.info logger
       ("Retrieved environment variables: NUMBER1=" +:+ Builtins.str_int num1
        +:+ ", NUMBER2=" +:+ Builtins.str_int num2)) ;;;
     let result := num1 + num2 in
     with_logging (Logging.info logger
       ("The result of adding " +:+ Builtins.str_int num1 +:+ " and "
        +:+ Builtins.str_int num2 +:+ " is " +:+ Builtins.str_int result)))
    (λ e, if is_ValueError e
          then Some (with_logging (Logging.error logger
                 ("Error converting environment variables to integers: "
                  +:+ exc_str e)))
          else if is_Exception e
          then Some (with_logging (Logging.error logger
                 ("An unexpected error occurred: " +:+ exc_str e)))
          else None).

End ExampleScript.

(* ===================================================================== *)
(** * Concrete processes                                                  *)
(* ===================================================================== *)

(** python-dotenv on a file system given as a map from a path to the
    variables that file defines: a missing file and a file without
    variables give [False]; a variable already in the environment keeps
    its value. *)
Definition dotenv_of_files (files : gmap string (gmap string string))
    : string → gmap string string → DotenvOutcome :=
  λ path env,
    match files !! path with
    | None => DotenvReturn false env
    | Some vars => DotenvReturn (negb (bool_decide (vars = ∅))) (env ∪ vars)
    end.

(** The same process after the env files on disk were changed to [fs']. *)
Definition with_files (fs' : string → gmap string string → DotenvOutcome)
    (w : World) : World :=
  mkWorld (environ w) fs' (dotenv_reads w) (_instance w) (_env_loaded w)
          (heap_next w) (logging w).

(** A loader that fails on every file with the given exception. *)
Definition dotenv_failing (e : PyExc)
    : string → gmap string string → DotenvOutcome :=
  λ _ env, DotenvRaise e env.

(** A process in which nothing has been logged or configured yet. *)
Definition fresh_logging (clock : nat → string) : Logging.LogState :=
  Logging.mkLogState ∅ ∅ clock 0 1 [] [].

Definition clock0 : nat → string := λ k, "20240101_00000" +:+ pretty k.

(** A process right after interpreter start: nothing imported, no manager,
    nothing loaded. *)
Definition fresh_world (env : gmap string string)
    (fs : string → gmap string string → DotenvOutcome) : World :=
  mkWorld env fs [] None false 1 (fresh_logging clock0).

(** The process after [import utils.env_manager]. *)
Definition started_world (env : gmap string string)
    (fs : string → gmap string string → DotenvOutcome) : World :=
  snd (EnvManager.import_module (fresh_world env fs)).

(* ===================================================================== *)
(** * Vocabulary for the properties below                                 *)
(* ===================================================================== *)

(** [s.endswith('/')] *)
Definition ends_with_sep (s : string) : bool :=
  match rev (list_ascii_of_string s) with
  | c :: _ => PosixPath.is_sep c
  | [] => false
  end.

(** [n] calls of [add_project_root_to_sys_path], one after the other. *)
Definition add_project_root_times (n : nat) (abs_file : string)
    (sys_path : list string) : list string :=
  Nat.iter n (PathSetup.add_project_root_to_sys_path abs_file) sys_path.

(** Running the example script: its module-level statements, then
    [do_something()]. *)
Definition run_example_script (name : string) : M unit :=
  ExampleScript.import_module name ;;;
  ExampleScript.do_something name.

(** A process right after interpreter start whose clock is [clk], and the
    same process after [import utils.env_manager]. *)
Definition fresh_world_at (clk : nat → string) (env : gmap string string)
    (fs : string → gmap string string → DotenvOutcome) : World :=
  mkWorld env fs [] None false 1 (fresh_logging clk).

Definition started_world_at (clk : nat → string) (env : gmap string string)
    (fs : string → gmap string string → DotenvOutcome) : World :=
  snd (EnvManager.import_module (fresh_world_at clk env fs)).


(** The file a handler writes to, if it is a file handler. *)
Definition sink_file (h : Logging.Handler) : option string :=
  match Logging.h_kind h with
  | Logging.RotatingFile f _ _ => Some f
  | _ => None
  end.

(** The records that a run of [m] from [w] adds to the log calls. *)
Definition logged {A} (m : M A) (w : World) : list Logging.LogRecord :=
  drop (length (Logging.log_calls (logging w)))
       (Logging.log_calls (logging (m w).2)).

(** The records that a run of [m] from [w] makes the handlers emit. *)
Definition emitted {A} (m : M A) (w : World)
    : list (Logging.Handler * Logging.LogRecord) :=
  drop (length (Logging.sink_out (logging w)))
       (Logging.sink_out (logging (m w).2)).

Example dirname_file :
  PosixPath.dirname "/srv/app/utils/path_setup.py" = "/srv/app/utils".
Proof. reflexivity. Qed.

Example dirname_root : PosixPath.dirname "/usr" = "/".
Proof. reflexivity. Qed.

Example dirname_trailing : PosixPath.dirname "/a//b" = "/a".
Proof. reflexivity. Qed.

Example dirname_relative : PosixPath.dirname "setup.py" = EmptyString.
Proof. reflexivity. Qed.

Example project_root_example :
  PathSetup.project_root "/srv/app/utils/path_setup.py" = "/srv/app".
Proof. reflexivity. Qed.

(** The first construction in a fresh process, with a file that defines
    [K=V]: a later lookup of [K] gives [V], read from [.env] once. *)
Example first_construction_loads :
  let w := started_world ∅ (dotenv_of_files {[ ".env" := {[ "K" := "V" ]} ]}) in
  let w' := (EnvManager.construct no_args w).2 in
  (EnvManager.construct no_args w).1 = Return 1%nat
  ∧ (EnvManager.get_env_variable "K" None w').1 = Return (Some "V")
  ∧ dotenv_reads w' = [".env"]
  ∧ _env_loaded w' = true.
Proof. vm_compute. repeat split. Qed.

(** A variable that is already in the environment keeps its value. *)
Example environment_takes_precedence :
  let w := started_world {[ "K" := "shell" ]}
             (dotenv_of_files {[ ".env" := {[ "K" := "file"; "L" := "1" ]} ]}) in
  let w' := (EnvManager.construct no_args w).2 in
  (EnvManager.get_env_variable "K" None w').1 = Return (Some "shell")
  ∧ (EnvManager.get_env_variable "L" None w').1 = Return (Some "1").
Proof. vm_compute. repeat split. Qed.

Example int_examples :
  Builtins.py_int " 7 " = Some 7
  ∧ Builtins.py_int "-12_000" = Some (-12000)
  ∧ Builtins.py_int "+5" = Some 5
  ∧ Builtins.py_int "seven" = None
  ∧ Builtins.py_int "1__0" = None
  ∧ Builtins.py_int "3.5" = None
  ∧ Builtins.py_int EmptyString = None.
Proof. vm_compute. repeat split. Qed.

Example ancestor_names_example :
  Logging.ancestor_names "utils.env_manager" = ["utils"]
  ∧ Logging.ancestor_names "a.b.c" = ["a.b"; "a"].
Proof. vm_compute. repeat split. Qed.

(* ===================================================================== *)
(** * PathSetup: the project root in the module search path              *)
(* ===================================================================== *)

Section PathSetupFacts.
Import PathSetup.
Variable abs_file : string.
Let root := project_root abs_file.

Lemma add_when_present (sp : list string) :
  root ∈ sp → add_project_root_to_sys_path abs_file sp = sp.
Proof.
  intros Hin. unfold add_project_root_to_sys_path.
  fold root. by rewrite bool_decide_eq_true_2.
Qed.

Lemma add_when_absent (sp : list string) :
  root ∉ sp → add_project_root_to_sys_path abs_file sp = root :: sp.
Proof.
  intros Hni. unfold add_project_root_to_sys_path.
  fold root. by rewrite bool_decide_eq_false_2.
Qed.

Lemma occurrences_absent (sp : list string) :
  root ∉ sp → occurrences root sp = 0%nat.
Proof.
  unfold occurrences. induction sp as [|y sp IH]; intros Hni; [done|].
  apply not_elem_of_cons in Hni as [Hne Hni].
  rewrite filter_cons_False by congruence. auto.
Qed.

Lemma occurrences_present (sp : list string) :
  root ∈ sp → (1 ≤ occurrences root sp)%nat.
Proof.
  unfold occurrences. induction sp as [|y sp IH]; intros Hin.
  - by apply elem_of_nil in Hin.
  - destruct (decide (y = root)) as [->|Hne].
    + rewrite filter_cons_True by reflexivity. simpl. lia.
    + rewrite filter_cons_False by exact Hne.
      apply elem_of_cons in Hin as [Heq|Hin]; [congruence | auto].
Qed.

Lemma occurrences_after (sp : list string) :
  occurrences root (add_project_root_to_sys_path abs_file sp)
  = Nat.max 1 (occurrences root sp).
Proof.
  destruct (decide (root ∈ sp)) as [Hin|Hni].
  - rewrite add_when_present by done.
    pose proof (occurrences_present sp Hin). lia.
  - rewrite add_when_absent by done.
    unfold occurrences. rewrite filter_cons_True by reflexivity. simpl.
    fold (occurrences root sp). rewrite occurrences_absent by done. lia.
Qed.

Lemma add_idempotent (sp : list string) :
  add_project_root_to_sys_path abs_file
    (add_project_root_to_sys_path abs_file sp)
  = add_project_root_to_sys_path abs_file sp.
Proof.
  destruct (decide (root ∈ sp)) as [Hin|Hni].
  - rewrite (add_when_present sp Hin). apply add_when_present, Hin.
  - rewrite (add_when_absent sp Hni).
    apply add_when_present. apply elem_of_cons. by left.
Qed.

End PathSetupFacts.

(** C6, as stated, fails: a search path that already lists the project
    root twice still lists it twice after the call, so "at most once" does
    not hold for every search path. *)
Lemma add_project_root_keeps_duplicates :
  let sp := ["/srv/app"; "/usr/lib/python3"; "/srv/app"] in
  let sp' :=
    PathSetup.add_project_root_to_sys_path "/srv/app/utils/path_setup.py" sp in
  PathSetup.project_root "/srv/app/utils/path_setup.py" = "/srv/app"
  ∧ sp' = sp
  ∧ PathSetup.occurrences "/srv/app" sp' = 2%nat
  ∧ ¬ (PathSetup.occurrences "/srv/app" sp' ≤ 1)%nat.
Proof. vm_compute. repeat split; lia. Qed.

(** C6, amended: for every search path the call inserts the project root at
    the front exactly when it is absent, never adds an occurrence when it is
    present (the count afterwards is the maximum of one and the count
    before, hence exactly one when it was at most one), and is idempotent. *)
Theorem add_project_root_inserts_once
    (abs_file : string) (sp : list string) :
  let root := PathSetup.project_root abs_file in
  let sp' := PathSetup.add_project_root_to_sys_path abs_file sp in
  (root ∈ sp → sp' = sp)
  ∧ (root ∉ sp → sp' = root :: sp)
  ∧ PathSetup.occurrences root sp'
    = Nat.max 1 (PathSetup.occurrences root sp)
  ∧ ((PathSetup.occurrences root sp ≤ 1)%nat
     → PathSetup.occurrences root sp' = 1%nat)
  ∧ PathSetup.add_project_root_to_sys_path abs_file sp' = sp'.
Proof.
  intros root sp'. subst root sp'. split_and!.
  - apply add_when_present.
  - apply add_when_absent.
  - apply occurrences_after.
  - intros Hle. rewrite occurrences_after. lia.
  - apply add_idempotent.
Qed.

Lemma add_project_root_inserts_once_witness :
  let f := "/srv/app/utils/path_setup.py" in
  let sp := ["/usr/lib/python3"; "/srv/app/scripts"] in
  PathSetup.add_project_root_to_sys_path f sp
    = ["/srv/app"; "/usr/lib/python3"; "/srv/app/scripts"]
  ∧ PathSetup.occurrences "/srv/app"
      (PathSetup.add_project_root_to_sys_path f sp) = 1%nat.
Proof.
  intros f sp.
  destruct (add_project_root_inserts_once f sp) as (_ & Habs & _ & Hone & _).
  split.
  - apply Habs. rewrite list_elem_of_In. cbn. intros [H|[H|[]]]; discriminate H.
  - apply Hone. vm_compute. lia.
Defined.

(* ===================================================================== *)
(** * LoggingWrapper: what a construction does to the logger registry     *)
(* ===================================================================== *)

Section WrapperFacts.
Import Logging LoggingWrapper.

Lemma logger_at_insert (reg : gmap string Logger) (k : string) (lg : Logger) :
  logger_at (<[k := lg]> reg) k = lg.
Proof. unfold logger_at. by rewrite lookup_insert_eq. Qed.

Lemma logger_at_insert_ne (reg : gmap string Logger) (k k' : string)
    (lg : Logger) :
  k ≠ k' → logger_at (<[k := lg]> reg) k' = logger_at reg k'.
Proof. intros Hne. unfold logger_at. by rewrite lookup_insert_ne. Qed.

Lemma init_logger (name : string) (a : InitArgs) (st : LogState) :
  (init name a st).1 = logger_key name.
Proof.
  unfold init, getLogger, LoggingWrapper.now, new_RotatingFileHandler,
    new_StreamHandler. simpl. by case_bool_decide.
Qed.

Lemma addHandler_pair (k : string) (fh ch : Handler) (st : LogState)
    (lv : Z) (pr : bool) :
  logger_at (loggers st) k = mkLogger lv [] pr →
  h_id fh ≠ h_id ch →
  loggers (addHandler k ch (addHandler k fh st))
  = <[k := mkLogger lv [fh; ch] pr]> (loggers st).
Proof.
  intros Hlg Hne. unfold addHandler, set_loggers.
  cbn [loggers]. rewrite Hlg. cbn [lg_handlers lg_level lg_propagate map app].
  rewrite (bool_decide_eq_false_2 (h_id fh ∈ []))
    by (intros H; by apply elem_of_nil in H).
  rewrite logger_at_insert.
  cbn [lg_handlers lg_level lg_propagate map app].
  rewrite (bool_decide_eq_false_2 (h_id ch ∈ [h_id fh]))
    by (rewrite list_elem_of_singleton; congruence).
  by rewrite insert_insert_eq.
Qed.

Lemma addHandler_frame (k : string) (h : Handler) (st : LogState) :
  addHandler k h st
  = mkLogState (loggers (addHandler k h st)) (fs_paths st) (clock st)
               (ticks st) (next_id st) (log_calls st) (sink_out st).
Proof. reflexivity. Qed.

(** The state after a construction, in closed form: the named logger is
    at [DEBUG] and keeps the handlers it had, or gets the two new ones
    when it had none. *)
Lemma init_closed (name : string) (a : InitArgs) (st : LogState) :
  let k := logger_key name in
  let lg := logger_at (loggers st) k in
  let dir := default default_log_dir (log_dir a) in
  init name a st
  = (k,
     mkLogState
       (<[k := mkLogger DEBUG
                 (if bool_decide (lg_handlers lg = [])
                  then [file_sink a st; console_sink a st]
                  else lg_handlers lg)
                 (lg_propagate lg)]> (loggers st))
       ({[PosixPath.join dir ("log_" +:+ clock st (ticks st) +:+ ".log")]}
        ∪ (if bool_decide (dir ∈ fs_paths st) then fs_paths st
           else {[dir]} ∪ fs_paths st))
       (clock st) (S (ticks st)) (S (S (next_id st)))
       (log_calls st) (sink_out st)).
Proof.
  intros k lg dir. unfold init, getLogger, LoggingWrapper.now,
    new_RotatingFileHandler, new_StreamHandler, setLevel, ensure_dir,
    set_loggers.
  fold k dir. cbn [loggers fs_paths clock ticks next_id log_calls sink_out].
  rewrite logger_at_insert, insert_insert_eq. fold lg.
  destruct (decide (lg_handlers lg = [])) as [Hnil|Hsome].
  - rewrite (bool_decide_eq_true_2 _ Hnil).
    destruct (bool_decide (dir ∈ fs_paths st));
      cbn [loggers fs_paths clock ticks next_id log_calls sink_out snd];
      rewrite logger_at_insert; cbn [lg_handlers];
      rewrite (bool_decide_eq_true_2 _ Hnil);
      rewrite addHandler_frame;
      (erewrite addHandler_pair;
       [ cbn [loggers]; rewrite insert_insert_eq; reflexivity
       | cbn [loggers]; rewrite logger_at_insert, Hnil; reflexivity
       | cbn; lia ]).
  - rewrite (bool_decide_eq_false_2 _ Hsome).
    destruct (bool_decide (dir ∈ fs_paths st));
      cbn [loggers fs_paths clock ticks next_id log_calls sink_out snd];
      rewrite logger_at_insert; cbn [lg_handlers];
      rewrite (bool_decide_eq_false_2 _ Hsome); reflexivity.
Qed.

(** ** Dispatch of a record *)

Lemma effective_level_set (reg : gmap string Logger) (k : string) :
  lg_level (logger_at reg k) ≠ 0 →
  getEffectiveLevel reg k = lg_level (logger_at reg k).
Proof.
  intros Hlv. unfold getEffectiveLevel. cbn [first_level].
  by rewrite bool_decide_eq_false_2.
Qed.

Lemma own_handlers_visited (reg : gmap string Logger) (k : string)
    (h : Handler) :
  h ∈ lg_handlers (logger_at reg k) →
  h ∈ visited_handlers reg (k :: parents reg k).
Proof. intros Hin. cbn [visited_handlers]. apply elem_of_app. by left. Qed.

Lemma own_handler_called (reg : gmap string Logger) (k : string)
    (h : Handler) (r : LogRecord) :
  h ∈ lg_handlers (logger_at reg k) →
  (h ∈ callHandlers reg k r ↔ h_level h ≤ rec_levelno r).
Proof.
  intros Hin. unfold callHandlers.
  pose proof (own_handlers_visited reg k h Hin) as Hv.
  destruct (visited_handlers reg (k :: parents reg k)) as [|h0 hs] eqn:E.
  - by apply elem_of_nil in Hv.
  - rewrite list_elem_of_filter. tauto.
Qed.

(** ** The parents of a logger *)

Lemma rfind_dot_lt (l : list ascii) (hi n : nat) :
  rfind_dot l hi = Some n → (n < hi)%nat.
Proof.
  induction hi as [|h IH]; cbn [rfind_dot]; [done|].
  destruct (l !! h) as [c|].
  - destruct (Ascii.eqb c "."); intros H.
    + injection H as <-. lia.
    + specialize (IH H). lia.
  - intros H. specialize (IH H). lia.
Qed.

Lemma prefixes_loop_proper (fuel : nat) (l : list ascii) (i : option nat)
    (k' : string) :
  (∀ n, i = Some n → (n < length l)%nat) →
  k' ∈ prefixes_loop fuel l i →
  ∃ n, (n < length l)%nat ∧ list_ascii_of_string k' = take n l.
Proof.
  revert i. induction fuel as [|f IH]; intros i Hi; cbn [prefixes_loop].
  - intros H. by apply elem_of_nil in H.
  - destruct i as [[|i']|]; try (intros H; by apply elem_of_nil in H).
    intros [->|Hin]%elem_of_cons.
    + exists (S i'). split; [by apply Hi|].
      apply list_ascii_of_string_of_list_ascii.
    + apply (IH (rfind_dot l i')); [|done].
      intros n Hn. apply rfind_dot_lt in Hn.
      specialize (Hi (S i') eq_refl). lia.
Qed.

(** Every name that [_fixupParents] visits is a proper prefix. *)
Lemma ancestor_names_ne (k k' : string) : k' ∈ ancestor_names k → k' ≠ k.
Proof.
  unfold ancestor_names. intros Hin ->.
  apply prefixes_loop_proper in Hin as (n & Hn & Heq).
  - apply (f_equal length) in Heq. rewrite length_take in Heq. lia.
  - intros n. apply rfind_dot_lt.
Qed.

Lemma parents_alone (reg : gmap string Logger) (k : string) :
  k ≠ "root" →
  (∀ k', k' ≠ k → reg !! k' = None) →
  parents reg k = ["root"].
Proof.
  intros Hk Halone. unfold parents.
  rewrite bool_decide_eq_false_2 by done.
  destruct (filter _ (ancestor_names k)) as [|k' ks] eqn:E; [done|].
  assert (Hin : k' ∈ filter (λ k0, k0 ≠ "root" ∧ is_Some (reg !! k0))
                       (ancestor_names k))
    by (rewrite E; apply elem_of_cons; by left).
  apply list_elem_of_filter in Hin as [[_ [lg Hlg]] Hin].
  apply ancestor_names_ne in Hin.
  rewrite (Halone k' Hin) in Hlg. discriminate.
Qed.

(** With no other logger in the registry, the handlers a record visits
    are the logger's own. *)
Lemma visited_alone (k : string) (lg : Logger) :
  visited_handlers (<[k := lg]> ∅) (k :: parents (<[k := lg]> ∅) k)
  = lg_handlers lg.
Proof.
  cbn [visited_handlers]. rewrite logger_at_insert.
  destruct (decide (k = "root")) as [->|Hk].
  - unfold parents. rewrite bool_decide_eq_true_2 by done.
    cbn [visited_handlers]. destruct (lg_propagate lg); by rewrite app_nil_r.
  - rewrite parents_alone; [|done|].
    + cbn [visited_handlers]. rewrite logger_at_insert_ne by done.
      unfold logger_at. rewrite lookup_empty. cbn.
      destruct (lg_propagate lg); by rewrite app_nil_r.
    + intros k' Hne. rewrite lookup_insert_ne by done. apply lookup_empty.
Qed.

(** After a construction the named logger has handlers and is at
    [DEBUG]. *)
Lemma init_post (name : string) (a : InitArgs) (st : LogState) :
  let k := logger_key name in
  let lg' := logger_at (loggers (init name a st).2) k in
  loggers (init name a st).2 !! k = Some lg'
  ∧ lg_level lg' = DEBUG
  ∧ lg_handlers lg' ≠ [].
Proof.
  intros k lg'. subst lg'. rewrite init_closed. fold k.
  cbn [snd loggers]. rewrite logger_at_insert, lookup_insert_eq.
  split_and!; [done|done|]. cbn [lg_handlers].
  case_bool_decide; done.
Qed.

(** A construction for a logger that has handlers leaves the registry's
    handlers as they are. *)
Lemma init_keeps_handlers (name : string) (a : InitArgs) (st : LogState) :
  lg_handlers (logger_at (loggers st) (logger_key name)) ≠ [] →
  lg_handlers (logger_at (loggers (init name a st).2) (logger_key name))
  = lg_handlers (logger_at (loggers st) (logger_key name)).
Proof.
  intros Hsome. rewrite init_closed. cbn [snd loggers].
  rewrite logger_at_insert. cbn [lg_handlers].
  by rewrite bool_decide_eq_false_2.
Qed.

(** A second construction with the same name leaves the whole registry
    as the first one left it. *)
Lemma init_twice_loggers (name : string) (a1 a2 : InitArgs)
    (st : LogState) :
  loggers (init name a2 (init name a1 st).2).2
  = loggers (init name a1 st).2.
Proof.
  destruct (init_post name a1 st) as (Hlook & Hlv & Hh).
  rewrite (init_closed name a2). cbn [snd loggers].
  rewrite (bool_decide_eq_false_2 _ Hh).
  apply insert_id. rewrite Hlook. f_equal.
  destruct (logger_at _ _) as [lv hs pr]. cbn in Hlv. by subst lv.
Qed.

Lemma log_sink_out (k : string) (lv : Z) (msg : string) (st : LogState) :
  isEnabledFor (loggers st) k lv = true →
  sink_out (log k lv msg st)
  = sink_out st
    ++ map (λ h, (h, mkRecord k lv msg))
           (callHandlers (loggers st) k (mkRecord k lv msg)).
Proof. intros Hen. unfold log. cbn [sink_out]. by rewrite Hen. Qed.

Lemma init_sink_out (name : string) (a : InitArgs) (st : LogState) :
  sink_out (init name a st).2 = sink_out st.
Proof. by rewrite init_closed. Qed.

Lemma init_enabled (name : string) (a : InitArgs) (st : LogState)
    (lv : Z) :
  DEBUG ≤ lv →
  isEnabledFor (loggers (init name a st).2) (logger_key name) lv = true.
Proof.
  intros Hlv. destruct (init_post name a st) as (_ & Hdebug & _).
  unfold isEnabledFor. rewrite effective_level_set; rewrite Hdebug.
  - by apply bool_decide_eq_true_2.
  - done.
Qed.

(** What one [info] call emits after two constructions. *)
Lemma info_after_twice (name : string) (a1 a2 : InitArgs) (st : LogState)
    (msg : string) :
  let k := logger_key name in
  let r := mkRecord k INFO msg in
  sink_out (Logging.info k msg (init name a2 (init name a1 st).2).2)
  = sink_out st
    ++ map (λ h, (h, r)) (callHandlers (loggers (init name a1 st).2) k r).
Proof.
  intros k r. unfold Logging.info.
  rewrite log_sink_out by (apply init_enabled; done).
  by rewrite !init_sink_out, init_twice_loggers.
Qed.

(** In a process without loggers, the handlers called are the two of the
    first wrapper whose level admits the record. *)
Lemma callHandlers_fresh (name : string) (a : InitArgs)
    (clk : nat → string) (r : LogRecord) :
  let st0 := fresh_logging clk in
  callHandlers (loggers (init name a st0).2) (logger_key name) r
  = filter (λ h, h_level h ≤ rec_levelno r)
           [file_sink a st0; console_sink a st0].
Proof.
  intros st0. rewrite init_closed. cbn [snd loggers].
  unfold callHandlers. subst st0. cbn [fresh_logging loggers].
  rewrite visited_alone. cbn [lg_handlers].
  assert (Hnone : lg_handlers (logger_at ∅ (logger_key name)) = []).
  { unfold logger_at. by rewrite (lookup_empty (M := gmap string)). }
  by rewrite (bool_decide_eq_true_2 _ Hnone).
Qed.

End WrapperFacts.

(** C7: for every logger name, all constructor arguments and every state of
    the logging module, a second [LoggingWrapper] with the same name returns
    the same logger and leaves the registry exactly as the first one left
    it, so no handler is added; handlers are attached only when the logger
    has none.  A single [info] call after the two constructions therefore
    emits what it would emit after one; in a process that starts without
    loggers these are the records of the file handler and the console
    handler of the first wrapper, each at most once, and with the default
    levels it is the one line of the file handler. *)
Theorem second_wrapper_attaches_nothing
    (name : string) (a1 a2 : LoggingWrapper.InitArgs)
    (st : Logging.LogState) (clk : nat → string) (msg : string) :
  let k := Logging.logger_key name in
  let r := Logging.mkRecord k Logging.INFO msg in
  let handlers_of s :=
    Logging.lg_handlers (Logging.logger_at (Logging.loggers s) k) in
  let twice s :=
    (LoggingWrapper.init name a2 (LoggingWrapper.init name a1 s).2).2 in
  let once s := (LoggingWrapper.init name a1 s).2 in
  (LoggingWrapper.init name a2 (once st)).1
    = (LoggingWrapper.init name a1 st).1
  ∧ Logging.loggers (twice st) = Logging.loggers (once st)
  ∧ handlers_of (twice st) = handlers_of (once st)
  ∧ (handlers_of st ≠ [] → handlers_of (once st) = handlers_of st)
  ∧ (handlers_of st = [] →
     handlers_of (once st)
     = [LoggingWrapper.file_sink a1 st; LoggingWrapper.console_sink a1 st])
  ∧ Logging.sink_out (LoggingWrapper.info k msg (twice st))
    = Logging.sink_out st
      ++ map (λ h, (h, r)) (Logging.callHandlers (Logging.loggers (once st)) k r)
  ∧ (let st0 := fresh_logging clk in
     let fh := LoggingWrapper.file_sink a1 st0 in
     let ch := LoggingWrapper.console_sink a1 st0 in
     Logging.sink_out (LoggingWrapper.info k msg (twice st0))
     = map (λ h, (h, r))
           (filter (λ h, Logging.h_level h ≤ Logging.INFO) [fh; ch])
     ∧ Logging.h_id fh ≠ Logging.h_id ch)
  ∧ (let st0 := fresh_logging clk in
     Logging.sink_out
       (LoggingWrapper.info k msg
          (LoggingWrapper.init name LoggingWrapper.only_name
             (LoggingWrapper.init name LoggingWrapper.only_name st0).2).2)
     = [(LoggingWrapper.file_sink LoggingWrapper.only_name st0, r)]).
Proof.
  intros k r handlers_of twice once. subst k r handlers_of twice once.
  cbn beta zeta. split_and!.
  - by rewrite !init_logger.
  - apply init_twice_loggers.
  - by rewrite init_twice_loggers.
  - apply init_keeps_handlers.
  - intros Hnil. rewrite init_closed. cbn [snd Logging.loggers].
    rewrite logger_at_insert. cbn [Logging.lg_handlers].
    by rewrite bool_decide_eq_true_2.
  - apply info_after_twice.
  - unfold LoggingWrapper.info. rewrite info_after_twice.
    by rewrite callHandlers_fresh.
  - cbn. lia.
  - unfold LoggingWrapper.info. rewrite info_after_twice.
    by rewrite callHandlers_fresh.
Qed.

Lemma second_wrapper_attaches_nothing_witness :
  let st0 := fresh_logging clock0 in
  let once := (LoggingWrapper.init "app" LoggingWrapper.only_name st0).2 in
  let twice := (LoggingWrapper.init "app" LoggingWrapper.only_name once).2 in
  Logging.lg_handlers (Logging.logger_at (Logging.loggers once) "app")
  = [LoggingWrapper.file_sink LoggingWrapper.only_name st0;
     LoggingWrapper.console_sink LoggingWrapper.only_name st0]
  ∧ Logging.loggers twice = Logging.loggers once
  ∧ Logging.sink_out (LoggingWrapper.info "app" "started" twice)
    = [(LoggingWrapper.file_sink LoggingWrapper.only_name st0,
        Logging.mkRecord "app" Logging.INFO "started")].
Proof.
  intros st0 once twice.
  pose proof (second_wrapper_attaches_nothing "app" LoggingWrapper.only_name
                LoggingWrapper.only_name st0 clock0 "started") as H.
  cbn zeta in H. destruct H as (_ & Hsame & _ & _ & Hnil & _ & _ & Hline).
  split_and!.
  - apply Hnil. vm_compute. reflexivity.
  - exact Hsame.
  - exact Hline.
Defined.

(** C9: a [LoggingWrapper] constructed with only a name, for a logger that
    has no handlers yet, attaches a rotating file handler in the directory
    [logs] with [maxBytes] 5 MiB (5242880), [backupCount] 5 and level
    [DEBUG], the lowest of the five levels, followed by a console handler
    at level [ERROR]; the directory exists afterwards.  Each handler applies
    its own level: the file handler is called for a record of any of the
    five levels, the console handler exactly for [ERROR] and above. *)
Theorem wrapper_defaults (name : string) (st : Logging.LogState)
    (Hnone : Logging.lg_handlers
               (Logging.logger_at (Logging.loggers st)
                                  (Logging.logger_key name)) = []) :
  let k := Logging.logger_key name in
  let st' := (LoggingWrapper.init name LoggingWrapper.only_name st).2 in
  let fh :=
    Logging.mkHandler (Logging.next_id st)
      (Logging.RotatingFile
         ("logs/log_" +:+ Logging.clock st (Logging.ticks st) +:+ ".log")
         5242880 5)
      10 (Some LoggingWrapper.FORMAT) in
  let ch :=
    Logging.mkHandler (S (Logging.next_id st)) Logging.Stream 40
      (Some LoggingWrapper.FORMAT) in
  Logging.lg_handlers (Logging.logger_at (Logging.loggers st') k) = [fh; ch]
  ∧ "logs" ∈ Logging.fs_paths st'
  ∧ 5242880 = 5 * 1024 * 1024
  ∧ Logging.h_level fh = Logging.DEBUG
  ∧ Logging.h_level ch = Logging.ERROR
  ∧ Forall (λ lv, Logging.DEBUG ≤ lv)
      [Logging.DEBUG; Logging.INFO; Logging.WARNING; Logging.ERROR;
       Logging.CRITICAL]
  ∧ (∀ r, fh ∈ Logging.callHandlers (Logging.loggers st') k r
          ↔ Logging.DEBUG ≤ Logging.rec_levelno r)
  ∧ (∀ r, ch ∈ Logging.callHandlers (Logging.loggers st') k r
          ↔ Logging.ERROR ≤ Logging.rec_levelno r).
Proof.
  intros k st' fh ch.
  assert (Hhs : Logging.lg_handlers
                  (Logging.logger_at (Logging.loggers st') k) = [fh; ch]).
  { subst st' k. rewrite init_closed. cbn [snd Logging.loggers].
    rewrite logger_at_insert. cbn [Logging.lg_handlers].
    by rewrite (bool_decide_eq_true_2 _ Hnone). }
  split_and!; try done.
  - subst st'. rewrite init_closed. cbn [snd Logging.fs_paths default
      LoggingWrapper.log_dir LoggingWrapper.only_name].
    unfold LoggingWrapper.default_log_dir.
    case_bool_decide; set_solver.
  - repeat constructor; unfold Logging.DEBUG, Logging.INFO, Logging.WARNING,
      Logging.ERROR, Logging.CRITICAL; lia.
  - intros r. apply (own_handler_called _ k fh r).
    rewrite Hhs. apply elem_of_cons. by left.
  - intros r. apply (own_handler_called _ k ch r).
    rewrite Hhs. apply elem_of_cons. right. apply elem_of_cons. by left.
Qed.

Lemma wrapper_defaults_witness :
  let st0 := fresh_logging clock0 in
  let st' := (LoggingWrapper.init "app" LoggingWrapper.only_name st0).2 in
  Logging.lg_handlers (Logging.logger_at (Logging.loggers st') "app")
  = [Logging.mkHandler 1
       (Logging.RotatingFile "logs/log_20240101_000000.log" 5242880 5) 10
       (Some LoggingWrapper.FORMAT);
     Logging.mkHandler 2 Logging.Stream 40 (Some LoggingWrapper.FORMAT)]
  ∧ "logs" ∈ Logging.fs_paths st'.
Proof.
  intros st0 st'.
  assert (Hnone : Logging.lg_handlers
            (Logging.logger_at (Logging.loggers st0)
                               (Logging.logger_key "app")) = [])
    by (vm_compute; reflexivity).
  pose proof (wrapper_defaults "app" st0 Hnone) as H.
  cbn zeta in H. destruct H as (Hhs & Hdir & _).
  split; [exact Hhs | exact Hdir].
Defined.

(* ===================================================================== *)
(** * EnvManager: loading                                                 *)
(* ===================================================================== *)

Section EnvManagerFacts.
Import EnvManager.

(** [load_env] in the state UNLOADED, by the outcome of [load_dotenv]. *)
Lemma load_env_unloaded (p : string) (w : World) :
  _env_loaded w = false →
  load_env p w
  = match dotenv_fs w p (environ w) with
    | DotenvReturn found env' =>
        (Return tt,
         mkWorld env' (dotenv_fs w) (dotenv_reads w ++ [p]) (_instance w)
           true (heap_next w)
           ((if found
             then Logging.info logger
                    ("Environment variables loaded from " +:+ p)
             else Logging.warning logger
                    ("No environment variables found in " +:+ p))
              (logging w)))
    | DotenvRaise e env' =>
        if is_Exception e
        then (Raise (RuntimeError
                       ("Failed to load environment variables from " +:+ p)
                       e),
              mkWorld env' (dotenv_fs w) (dotenv_reads w ++ [p])
                (_instance w) false (heap_next w)
                (Logging.error logger
                   ("Error loading environment variables from " +:+ p
                    +:+ ": " +:+ exc_str e) (logging w)))
        else (Raise e,
              mkWorld env' (dotenv_fs w) (dotenv_reads w ++ [p])
                (_instance w) false (heap_next w) (logging w))
    end.
Proof.
  intros Hun. unfold load_env, try_except, bind, load_dotenv.
  rewrite Hun. cbn [negb].
  destruct (dotenv_fs w p (environ w)) as [found env'|e env'].
  - destruct found; reflexivity.
  - destruct (is_Exception e); cbn; by rewrite ?Hun.
Qed.

Lemma load_env_loaded (p : string) (w : World) :
  _env_loaded w = true → load_env p w = (Return tt, w).
Proof. intros Hl. unfold load_env. by rewrite Hl. Qed.

Lemma load_env_instance (p : string) (w : World) :
  _instance (load_env p w).2 = _instance w.
Proof.
  destruct (_env_loaded w) eqn:Hl.
  - by rewrite load_env_loaded.
  - rewrite load_env_unloaded by done.
    destruct (dotenv_fs w p (environ w)) as [found env'|e env'];
      [done | by destruct (is_Exception e)].
Qed.

Lemma init_instance (self : nat) (a : CallArgs) (w : World) :
  _instance (init self a w).2 = _instance w.
Proof.
  unfold init. destruct (bind_init a) as [p|e]; [|done].
  destruct (negb (_env_loaded w)); [apply load_env_instance | done].
Qed.

(** [__new__] returns the stored instance, or stores the one it makes. *)
Lemma new_spec (a : CallArgs) (w : World) :
  match new a w with
  | (Return o, w') =>
      _instance w' = Some o
      ∧ (∀ o0, _instance w = Some o0 → o = o0)
  | (Raise _, w') => w' = w ∧ _instance w = None
  end.
Proof.
  unfold new, bind, object_new, set_instance, ret.
  destruct (_instance w) as [o0|] eqn:Hi.
  - split; [done|]. by intros ? [= ->].
  - destruct (excess_args a); cbn; split; done.
Qed.

Lemma construct_spec (a : CallArgs) (w : World) :
  (∀ o0, _instance w = Some o0 → _instance (construct a w).2 = Some o0)
  ∧ (∀ o, (construct a w).1 = Return o →
          _instance (construct a w).2 = Some o).
Proof.
  unfold construct, bind at 1 3 5.
  pose proof (new_spec a w) as Hnew.
  destruct (new a w) as [[o|e] w1].
  - destruct Hnew as [Hst Hold]. unfold bind, ret.
    pose proof (init_instance o a w1) as Hinit.
    destruct (init o a w1) as [[[]|e] w2]; cbn in *.
    + split.
      * intros o0 H0. rewrite Hinit, Hst. f_equal. by apply Hold.
      * intros o' [= <-]. by rewrite Hinit.
    + split; [|done].
      intros o0 H0. rewrite Hinit, Hst. f_equal. by apply Hold.
  - destruct Hnew as [-> Hnone]. cbn. split; [|done].
    intros o0 H0. congruence.
Qed.

Lemma constructions_cons (a : CallArgs) (rest : list CallArgs) (w : World) :
  constructions (a :: rest) w
  = ((construct a w).1 :: (constructions rest (construct a w).2).1,
     (constructions rest (construct a w).2).2).
Proof.
  cbn [constructions]. destruct (construct a w) as [r w']. cbn [fst snd].
  destruct (constructions rest w') as [rs w'']. reflexivity.
Qed.

(** Once an instance is stored, every later construction that returns,
    returns it, and it stays stored. *)
Lemma constructions_stored (reqs : list CallArgs) :
  ∀ (w : World) (o : nat),
    _instance w = Some o →
    _instance (constructions reqs w).2 = Some o
    ∧ ∀ o', Return o' ∈ (constructions reqs w).1 → o' = o.
Proof.
  induction reqs as [|a rest IH]; intros w o Hst.
  - cbn. split; [done|]. intros o' H. by apply elem_of_nil in H.
  - rewrite constructions_cons. cbn [fst snd].
    destruct (construct_spec a w) as [Hkeep Hret].
    destruct (IH _ _ (Hkeep o Hst)) as [IHst IHres].
    split; [done|].
    intros o' [Hhead|Hin]%elem_of_cons; [|by apply IHres].
    symmetry in Hhead. apply Hret in Hhead.
    rewrite (Hkeep o Hst) in Hhead. by injection Hhead.
Qed.

End EnvManagerFacts.

(** C1: in every process state and for every sequence of construction
    requests, whatever their arguments, any two constructions that return
    an object return the same one, and that object is the instance the
    class holds afterwards.  (A construction that raises returns no
    object.) *)
Theorem singleton_instance
    (reqs : list CallArgs) (w : World) (o1 o2 : nat)
    (H1 : Return o1 ∈ (EnvManager.constructions reqs w).1)
    (H2 : Return o2 ∈ (EnvManager.constructions reqs w).1) :
  o1 = o2 ∧ _instance (EnvManager.constructions reqs w).2 = Some o1.
Proof.
  revert w H1 H2. induction reqs as [|a rest IH]; intros w H1 H2.
  - by apply elem_of_nil in H1.
  - rewrite constructions_cons in *. cbn [fst snd] in *.
    destruct (construct_spec a w) as [_ Hret].
    apply elem_of_cons in H1 as [Hh1|Hin1].
    + symmetry in Hh1. apply Hret in Hh1.
      destruct (constructions_stored rest _ _ Hh1) as [Hst Hres].
      split; [|done].
      apply elem_of_cons in H2 as [Hh2|Hin2].
      * symmetry in Hh2. apply Hret in Hh2. congruence.
      * symmetry. by apply Hres.
    + apply elem_of_cons in H2 as [Hh2|Hin2].
      * symmetry in Hh2. apply Hret in Hh2.
        destruct (constructions_stored rest _ _ Hh2) as [Hst Hres].
        rewrite (Hres _ Hin1). done.
      * by apply IH.
Qed.

Lemma singleton_instance_witness :
  let reqs := [mkArgs ["custom.env"] []; no_args; mkArgs ["other.env"] [];
               mkArgs [] [("file_path", "third.env")]] in
  let w := started_world ∅ (dotenv_of_files {[ ".env" := {[ "K" := "V" ]} ]}) in
  (EnvManager.constructions reqs w).1
  = [Raise (TypeError
       "object.__new__() takes exactly one argument (the type to instantiate)");
     Return 1%nat; Return 1%nat; Return 1%nat]
  ∧ _instance (EnvManager.constructions reqs w).2 = Some 1%nat.
Proof.
  intros reqs w.
  assert (Hres : (EnvManager.constructions reqs w).1
    = [Raise (TypeError
         "object.__new__() takes exactly one argument (the type to instantiate)");
       Return 1%nat; Return 1%nat; Return 1%nat])
    by (vm_compute; reflexivity).
  split; [exact Hres|].
  apply (singleton_instance reqs w 1%nat 1%nat); rewrite Hres.
  - apply elem_of_cons. right. apply elem_of_cons. by left.
  - do 3 (apply elem_of_cons; right). apply elem_of_cons. by left.
Defined.

(* ===================================================================== *)
(** * EnvManager: the state LOADED is terminal                            *)
(* ===================================================================== *)

Section LoadedFacts.
Import EnvManager.

(** A construction in the state LOADED, in closed form. *)
Lemma construct_loaded (a : CallArgs) (w : World) :
  _env_loaded w = true →
  construct a w
  = match _instance w with
    | Some o =>
        match bind_init a with
        | Return _ => (Return o, w)
        | Raise e => (Raise e, w)
        end
    | None =>
        if excess_args a
        then (Raise (TypeError
                "object.__new__() takes exactly one argument (the type to instantiate)"),
              w)
        else (Return (heap_next w),
              mkWorld (environ w) (dotenv_fs w) (dotenv_reads w)
                      (Some (heap_next w)) true (S (heap_next w))
                      (logging w))
    end.
Proof.
  intros Hl. unfold construct, bind, new, init, object_new, set_instance,
    bind, ret, raise.
  destruct (_instance w) as [o|] eqn:Hi.
  - destruct (bind_init a) as [p|e]; [|done]. by rewrite Hl.
  - destruct a as [[|p ps] [|kv kvs]]; cbn; try done.
    by rewrite Hl.
Qed.

Lemma get_env_variable_value (name : string) (d : option string)
    (w : World) :
  (get_env_variable name d w).1
  = Return (match environ w !! name with Some v => Some v | None => d end).
Proof.
  unfold get_env_variable, try_except, bind, getenv, ret, with_logging.
  destruct (environ w !! name) as [v|]; [done|]. by destruct d.
Qed.

End LoadedFacts.

(** C2: in a state where the LOADED flag is set, [load_env] with any path
    returns without changing the process state at all; a construction with
    any arguments reads no file and leaves the environment, the flag and
    the log as they are, and with a path and the instance present it
    returns that instance and changes nothing; so whatever the env files
    contain afterwards, a looked-up value is the one from before. *)
Theorem loaded_is_terminal (w : World) (Hloaded : _env_loaded w = true) :
  (∀ p, EnvManager.load_env p w = (Return tt, w))
  ∧ (∀ a, let w' := (EnvManager.construct a w).2 in
          environ w' = environ w
          ∧ dotenv_reads w' = dotenv_reads w
          ∧ _env_loaded w' = true
          ∧ logging w' = logging w)
  ∧ (∀ o p, _instance w = Some o →
            EnvManager.construct (mkArgs [p] []) w = (Return o, w))
  ∧ (∀ fs' a name d,
       (EnvManager.get_env_variable name d
          (EnvManager.construct a (with_files fs' w)).2).1
       = (EnvManager.get_env_variable name d w).1)
  ∧ (∀ fs' p name d,
       (EnvManager.get_env_variable name d
          (EnvManager.load_env p (with_files fs' w)).2).1
       = (EnvManager.get_env_variable name d w).1).
Proof.
  assert (Hconstruct : ∀ a w0, _env_loaded w0 = true →
    environ (EnvManager.construct a w0).2 = environ w0
    ∧ dotenv_reads (EnvManager.construct a w0).2 = dotenv_reads w0
    ∧ _env_loaded (EnvManager.construct a w0).2 = true
    ∧ logging (EnvManager.construct a w0).2 = logging w0).
  { intros a w0 Hl. rewrite construct_loaded by done.
    destruct (_instance w0) as [o|].
    - by destruct (EnvManager.bind_init a).
    - by destruct (excess_args a). }
  split_and!.
  - intros p. by apply load_env_loaded.
  - intros a. by apply Hconstruct.
  - intros o p Hi. rewrite construct_loaded by done. by rewrite Hi.
  - intros fs' a name d. rewrite !get_env_variable_value.
    destruct (Hconstruct a (with_files fs' w) Hloaded) as (-> & _). done.
  - intros fs' p name d. rewrite !get_env_variable_value.
    by rewrite load_env_loaded.
Qed.

Lemma loaded_is_terminal_witness :
  let fs := dotenv_of_files {[ ".env" := {[ "K" := "V" ]} ]} in
  let fs' := dotenv_of_files {[ ".env" := {[ "K" := "changed" ]};
                                "other.env" := {[ "K" := "other" ]} ]} in
  let w := (EnvManager.construct no_args (started_world ∅ fs)).2 in
  (EnvManager.get_env_variable "K" None w).1 = Return (Some "V")
  ∧ EnvManager.construct (mkArgs ["other.env"] []) (with_files fs' w)
    = (Return 1%nat, with_files fs' w)
  ∧ (EnvManager.get_env_variable "K" None
       (EnvManager.construct (mkArgs ["other.env"] []) (with_files fs' w)).2).1
    = Return (Some "V")
  ∧ dotenv_reads
      (EnvManager.construct (mkArgs ["other.env"] []) (with_files fs' w)).2
    = [".env"].
Proof.
  intros fs fs' w.
  assert (Hl : _env_loaded (with_files fs' w) = true) by (vm_compute; reflexivity).
  pose proof (loaded_is_terminal (with_files fs' w) Hl) as (_ & Hc & Hsame & _).
  pose proof (loaded_is_terminal w eq_refl) as (_ & _ & _ & Hval & _).
  split_and!.
  - vm_compute. reflexivity.
  - apply Hsame. vm_compute. reflexivity.
  - rewrite Hval. vm_compute. reflexivity.
  - destruct (Hc (mkArgs ["other.env"] [])) as (_ & -> & _).
    vm_compute. reflexivity.
Defined.

(* ===================================================================== *)
(** * EnvManager: lookup with a default                                   *)
(* ===================================================================== *)




(* ===================================================================== *)
(** * EnvManager: the outcomes of a load                                  *)
(* ===================================================================== *)

(** C4: when [load_env] runs in the state UNLOADED and [load_dotenv] raises
    an exception of class [Exception], the call logs one error that names
    the file and the exception, raises a [RuntimeError] whose cause is that
    exception, and leaves the flag unset; the stored instance is untouched
    as well. *)
Theorem load_env_failure
    (p : string) (w : World) (e : PyExc) (env' : gmap string string)
    (Hunloaded : _env_loaded w = false)
    (Hraise : dotenv_fs w p (environ w) = DotenvRaise e env')
    (Hexc : is_Exception e = true) :
  let r := (EnvManager.load_env p w).1 in
  let w' := (EnvManager.load_env p w).2 in
  r = Raise (RuntimeError
               ("Failed to load environment variables from " +:+ p) e)
  ∧ (∀ x, r = Raise x → exc_cause x = Some e)
  ∧ _env_loaded w' = false
  ∧ _instance w' = _instance w
  ∧ Logging.log_calls (logging w')
    = Logging.log_calls (logging w)
      ++ [Logging.mkRecord EnvManager.logger Logging.ERROR
            ("Error loading environment variables from " +:+ p +:+ ": "
             +:+ exc_str e)].
Proof.
  intros r w'. subst r w'.
  rewrite load_env_unloaded by done. rewrite Hraise, Hexc. cbn.
  split_and!; try done. by intros x [= <-].
Qed.

Lemma load_env_failure_witness :
  let e := OtherException "UnicodeDecodeError" "invalid start byte" in
  let w := started_world ∅ (dotenv_failing e) in
  (EnvManager.load_env ".env" w).1
  = Raise (RuntimeError "Failed to load environment variables from .env" e)
  ∧ _env_loaded (EnvManager.load_env ".env" w).2 = false.
Proof.
  intros e w.
  assert (Hun : _env_loaded w = false) by (vm_compute; reflexivity).
  assert (Hr : dotenv_fs w ".env" (environ w) = DotenvRaise e (environ w))
    by reflexivity.
  pose proof (load_env_failure ".env" w e (environ w) Hun Hr eq_refl)
    as (Hres & _ & Hflag & _).
  split; [exact Hres | exact Hflag].
Defined.

(** C5: when [load_env] runs in the state UNLOADED and [load_dotenv] reports
    that it found nothing (the file is absent or defines no variable), the
    call logs one warning that names the file, returns without raising, and
    sets the LOADED flag. *)
Theorem load_env_nothing_found
    (p : string) (w : World) (env' : gmap string string)
    (Hunloaded : _env_loaded w = false)
    (Hnone : dotenv_fs w p (environ w) = DotenvReturn false env') :
  let w' := (EnvManager.load_env p w).2 in
  (EnvManager.load_env p w).1 = Return tt
  ∧ _env_loaded w' = true
  ∧ Logging.log_calls (logging w')
    = Logging.log_calls (logging w)
      ++ [Logging.mkRecord EnvManager.logger Logging.WARNING
            ("No environment variables found in " +:+ p)].
Proof.
  intros w'. subst w'.
  rewrite load_env_unloaded by done. rewrite Hnone. by cbn.
Qed.

Lemma load_env_nothing_found_witness :
  let absent := started_world ∅ (dotenv_of_files ∅) in
  let empty := started_world ∅ (dotenv_of_files {[ ".env" := ∅ ]}) in
  ((EnvManager.load_env ".env" absent).1 = Return tt
   ∧ _env_loaded (EnvManager.load_env ".env" absent).2 = true)
  ∧ ((EnvManager.load_env ".env" empty).1 = Return tt
     ∧ _env_loaded (EnvManager.load_env ".env" empty).2 = true).
Proof.
  intros absent empty. split.
  - assert (Hun : _env_loaded absent = false) by (vm_compute; reflexivity).
    assert (Hn : dotenv_fs absent ".env" (environ absent)
                 = DotenvReturn false (environ absent))
      by (vm_compute; reflexivity).
    pose proof (load_env_nothing_found ".env" absent _ Hun Hn)
      as (Hres & Hflag & _).
    split; [exact Hres | exact Hflag].
  - assert (Hun : _env_loaded empty = false) by (vm_compute; reflexivity).
    assert (Hn : dotenv_fs empty ".env" (environ empty)
                 = DotenvReturn false (environ empty ∪ ∅))
      by (vm_compute; reflexivity).
    pose proof (load_env_nothing_found ".env" empty _ Hun Hn)
      as (Hres & Hflag & _).
    split; [exact Hres | exact Hflag].
Defined.

(* ===================================================================== *)
(** * EnvManager: the first construction                                  *)
(* ===================================================================== *)

Section FirstConstruction.
Import EnvManager.

Lemma no_excess_args (a : CallArgs) : excess_args a = false → a = no_args.
Proof.
  destruct a as [ps kvs]. unfold excess_args, no_args. cbn.
  destruct ps, kvs; cbn; intros H; try discriminate H; reflexivity.
Qed.

Lemma construct_first_excess (a : CallArgs) (w : World) :
  _instance w = None →
  excess_args a = true →
  construct a w
  = (Raise (TypeError
       "object.__new__() takes exactly one argument (the type to instantiate)"),
     w).
Proof.
  intros Hnone Hex. unfold construct, bind, new, object_new.
  by rewrite Hnone, Hex.
Qed.

End FirstConstruction.

(** C10: while the class holds no instance, a construction with any
    positional or keyword argument raises the [TypeError] of
    [object.__new__] and leaves the process state as it was, so no load is
    attempted and no file is read; a construction that returns an object was
    therefore made without arguments, and the zero-argument form, whose
    load of [.env] returns, yields the new object. *)
Theorem first_construction_rejects_arguments
    (a : CallArgs) (w : World) (Hfirst : _instance w = None) :
  (excess_args a = true →
   EnvManager.construct a w
   = (Raise (TypeError
        "object.__new__() takes exactly one argument (the type to instantiate)"),
      w))
  ∧ (∀ p, EnvManager.construct (mkArgs [p] []) w
          = (Raise (TypeError
               "object.__new__() takes exactly one argument (the type to instantiate)"),
             w))
  ∧ (∀ o, (EnvManager.construct a w).1 = Return o → a = no_args)
  ∧ (∀ found env',
       _env_loaded w = false →
       dotenv_fs w ".env" (environ w) = DotenvReturn found env' →
       (EnvManager.construct no_args w).1 = Return (heap_next w)
       ∧ dotenv_reads (EnvManager.construct no_args w).2
         = dotenv_reads w ++ [".env"]
       ∧ _env_loaded (EnvManager.construct no_args w).2 = true).
Proof.
  split_and!.
  - by apply construct_first_excess.
  - intros p. by apply construct_first_excess.
  - intros o Hret. apply no_excess_args.
    destruct (excess_args a) eqn:Hex; [|done].
    rewrite construct_first_excess in Hret by done. discriminate Hret.
  - intros found env' Hun Hfs.
    unfold EnvManager.construct, bind at 1 3 5.
    unfold EnvManager.new, bind, object_new, EnvManager.set_instance, ret.
    rewrite Hfirst. cbn.
    rewrite Hun. cbn [negb].
    rewrite load_env_unloaded by done. cbn. rewrite Hfs. by cbn.
Qed.

Lemma first_construction_rejects_arguments_witness :
  let w := started_world ∅ (dotenv_of_files {[ "custom.env" := {[ "K" := "V" ]} ]}) in
  EnvManager.construct (mkArgs ["custom.env"] []) w
  = (Raise (TypeError
       "object.__new__() takes exactly one argument (the type to instantiate)"),
     w)
  ∧ dotenv_reads (EnvManager.construct (mkArgs ["custom.env"] []) w).2 = []
  ∧ (EnvManager.construct no_args w).1 = Return 1%nat.
Proof.
  intros w.
  assert (Hfirst : _instance w = None) by (vm_compute; reflexivity).
  pose proof (first_construction_rejects_arguments
                (mkArgs ["custom.env"] []) w Hfirst) as (Hex & _ & _ & Hzero).
  assert (Heq := Hex eq_refl).
  split_and!.
  - exact Heq.
  - rewrite Heq. vm_compute. reflexivity.
  - assert (Hun : _env_loaded w = false) by (vm_compute; reflexivity).
    assert (Hfs : dotenv_fs w ".env" (environ w)
                  = DotenvReturn false (environ w))
      by (vm_compute; reflexivity).
    destruct (Hzero _ _ Hun Hfs) as (Hret & _). exact Hret.
Defined.

(* ===================================================================== *)
(** * [int] on the decimal strings that [str] writes                      *)
(* ===================================================================== *)

Section BuiltinsFacts.
Import Builtins.










End BuiltinsFacts.

(* ===================================================================== *)
(** * The example script                                                  *)
(* ===================================================================== *)

Section ScriptFacts.
Import EnvManager ExampleScript.


Lemma bind_return {A B} (m : M A) (k : A → M B) (w w' : World) (a : A) :
  m w = (Return a, w') → bind m k w = k a w'.
Proof. intros H. unfold bind. by rewrite H. Qed.

Lemma bind_raise {A B} (m : M A) (k : A → M B) (w w' : World) (e : PyExc) :
  m w = (Raise e, w') → bind m k w = (Raise e, w').
Proof. intros H. unfold bind. by rewrite H. Qed.



End ScriptFacts.





(* ===================================================================== *)
(** * PathSetup: further properties                                       *)
(* ===================================================================== *)

Section PathLayout.
Import PosixPath.

Lemma list_ascii_of_string_app (a b : string) :
  list_ascii_of_string (a +:+ b)
  = list_ascii_of_string a ++ list_ascii_of_string b.
Proof.
  induction a as [|c a IH]; [done|].
  change (String c a +:+ b) with (String c (a +:+ b)).
  cbn [list_ascii_of_string app]. by rewrite IH.
Qed.

Lemma upto_last_sep_app_sep (a b : list ascii) :
  forallb (λ c, negb (is_sep c)) b = true →
  upto_last_sep (a ++ sep :: b) = a ++ [sep].
Proof.
  intros Hb.
  assert (Hnone : upto_last_sep b = []).
  { induction b as [|c b IH]; [done|]. cbn in Hb.
    apply andb_true_iff in Hb as [Hc Hb]. cbn [upto_last_sep].
    rewrite (IH Hb). by destruct (is_sep c). }
  induction a as [|c a IH]; cbn [app upto_last_sep].
  - by rewrite Hnone.
  - rewrite IH. by destruct a.
Qed.

Lemma rstrip_sep_snoc_sep (a : list ascii) :
  rstrip_sep (a ++ [sep]) = rstrip_sep a.
Proof.
  induction a as [|c a IH]; [done|]. cbn [app rstrip_sep]. by rewrite IH.
Qed.

Lemma rstrip_sep_snoc (a : list ascii) (c : ascii) :
  is_sep c = false → rstrip_sep (a ++ [c]) = a ++ [c].
Proof.
  intros Hc. induction a as [|d a IH]; cbn [app rstrip_sep].
  - by rewrite Hc.
  - rewrite IH. by destruct a.
Qed.

Lemma forallb_sep_snoc (a : list ascii) (c : ascii) :
  is_sep c = false → forallb is_sep (a ++ [c] ++ [sep]) = false.
Proof.
  intros Hc. induction a as [|d a IH]; cbn.
  - by rewrite Hc.
  - cbn in IH. rewrite IH. apply andb_false_r.
Qed.

(** [dirname] of [d/x] is [d] when [d] ends in a character other than the
    separator and [x] has no separator. *)
Lemma dirname_child (a : list ascii) (c : ascii) (x : list ascii) :
  is_sep c = false →
  forallb (λ c, negb (is_sep c)) x = true →
  dirname (string_of_list_ascii ((a ++ [c]) ++ sep :: x))
  = string_of_list_ascii (a ++ [c]).
Proof.
  intros Hc Hx. unfold dirname.
  rewrite list_ascii_of_string_of_list_ascii, upto_last_sep_app_sep by done.
  rewrite <- app_assoc, forallb_sep_snoc by done.
  rewrite app_assoc, rstrip_sep_snoc_sep, rstrip_sep_snoc by done.
  reflexivity.
Qed.

End PathLayout.

(** X1: for every directory [r] that is not empty and has no trailing
    separator, a component file at [r/utils/path_setup.py] computes [r] as
    the project root: the parent of the directory that holds the file. *)
Theorem project_root_of_layout (r : string)
    (Hnonempty : r ≠ EmptyString) (Hend : ends_with_sep r = false) :
  PosixPath.dirname (r +:+ "/utils/path_setup.py") = r +:+ "/utils"
  ∧ PathSetup.project_root (r +:+ "/utils/path_setup.py") = r.
Proof.
  assert (Hr : ∃ a c, list_ascii_of_string r = a ++ [c]
                      ∧ PosixPath.is_sep c = false).
  { unfold ends_with_sep in Hend.
    destruct (rev (list_ascii_of_string r)) as [|c ra] eqn:E.
    - apply (f_equal (@rev ascii)) in E. rewrite rev_involutive in E.
      destruct r; [done | discriminate E].
    - exists (rev ra), c. split; [|done].
      apply (f_equal (@rev ascii)) in E. by rewrite rev_involutive in E. }
  destruct Hr as (a & c & Hr & Hc).
  assert (Hfirst : PosixPath.dirname (r +:+ "/utils/path_setup.py")
                   = r +:+ "/utils").
  { rewrite <- (string_of_list_ascii_of_string (r +:+ "/utils/path_setup.py")).
    rewrite <- (string_of_list_ascii_of_string (r +:+ "/utils")).
    rewrite !list_ascii_of_string_app.
    change (list_ascii_of_string "/utils/path_setup.py")
      with ((list_ascii_of_string "/util" ++ ["s"%char])
            ++ PosixPath.sep :: list_ascii_of_string "path_setup.py").
    change (list_ascii_of_string "/utils")
      with (list_ascii_of_string "/util" ++ ["s"%char]).
    rewrite !app_assoc. rewrite <- (app_assoc _ _ (_ :: _)).
    rewrite !app_assoc.
    apply (dirname_child _ "s"%char); reflexivity. }
  split; [exact Hfirst|].
  unfold PathSetup.project_root. rewrite Hfirst.
  rewrite <- (string_of_list_ascii_of_string (r +:+ "/utils")).
  rewrite <- (string_of_list_ascii_of_string r) at 2.
  rewrite list_ascii_of_string_app, Hr.
  change (list_ascii_of_string "/utils")
    with (PosixPath.sep :: list_ascii_of_string "utils").
  by apply dirname_child.
Qed.

Lemma project_root_of_layout_witness :
  PathSetup.project_root "/home/dev/python_project_setup/utils/path_setup.py"
  = "/home/dev/python_project_setup".
Proof.
  apply (project_root_of_layout "/home/dev/python_project_setup");
    [discriminate | reflexivity].
Defined.

(** X2: any number of calls, at least one, leaves the search path that a
    single call leaves. *)
Theorem add_project_root_repeated
    (n : nat) (abs_file : string) (sp : list string) :
  add_project_root_times (S n) abs_file sp
  = PathSetup.add_project_root_to_sys_path abs_file sp.
Proof.
  unfold add_project_root_times. induction n as [|n IH]; [done|].
  rewrite Nat.iter_succ, IH. apply add_idempotent.
Qed.

(** X3: a call never removes or reorders an entry: the old search path is
    a suffix of the new one, which is longer by at most one entry; the
    project root is in the path afterwards, and the number of occurrences
    of every other entry is unchanged. *)
Theorem add_project_root_keeps_entries
    (abs_file : string) (sp : list string) :
  let root := PathSetup.project_root abs_file in
  let sp' := PathSetup.add_project_root_to_sys_path abs_file sp in
  root ∈ sp'
  ∧ sp `suffix_of` sp'
  ∧ (length sp ≤ length sp' ≤ S (length sp))%nat
  ∧ (∀ x, x ≠ root →
          PathSetup.occurrences x sp' = PathSetup.occurrences x sp).
Proof.
  intros root sp'. subst root sp'.
  destruct (decide (PathSetup.project_root abs_file ∈ sp)) as [Hin|Hni].
  - rewrite add_when_present by done. split_and!; try done; lia.
  - rewrite add_when_absent by done. split_and!.
    + apply elem_of_cons. by left.
    + by apply suffix_cons_r.
    + cbn. lia.
    + cbn. lia.
    + intros x Hx. unfold PathSetup.occurrences.
      by rewrite filter_cons_False by congruence.
Qed.

Lemma add_project_root_keeps_entries_witness :
  let f := "/srv/app/utils/path_setup.py" in
  let sp := ["/usr/lib/python3"; "/usr/lib/python3"; "/srv/app/scripts"] in
  let sp' := PathSetup.add_project_root_to_sys_path f sp in
  "/srv/app" ∈ sp'
  ∧ PathSetup.occurrences "/usr/lib/python3" sp' = 2%nat.
Proof.
  intros f sp sp'.
  pose proof (add_project_root_keeps_entries f sp) as H. cbn zeta in H.
  destruct H as (Hin & _ & _ & Hocc).
  split; [exact Hin|].
  subst sp'. rewrite (Hocc "/usr/lib/python3") by (vm_compute; discriminate).
  vm_compute. reflexivity.
Defined.

(* ===================================================================== *)
(** * LoggingWrapper: further properties                                  *)
(* ===================================================================== *)

Section WrapperRouting.
Import Logging LoggingWrapper.

Lemma init_isEnabledFor (name : string) (a : InitArgs) (st : LogState)
    (lv : Z) :
  isEnabledFor (loggers (init name a st).2) (logger_key name) lv
  = bool_decide (DEBUG ≤ lv).
Proof.
  destruct (init_post name a st) as (_ & Hdebug & _).
  unfold isEnabledFor. rewrite effective_level_set; by rewrite Hdebug.
Qed.

(** What a log call at level [lv] emits right after the first wrapper of a
    process was constructed. *)
Lemma log_after_fresh_init (name : string) (a : InitArgs)
    (clk : nat → string) (lv : Z) (msg : string) :
  let st0 := fresh_logging clk in
  let k := logger_key name in
  sink_out (log k lv msg (init name a st0).2)
  = if bool_decide (DEBUG ≤ lv)
    then map (λ h, (h, mkRecord k lv msg))
             (filter (λ h, h_level h ≤ lv)
                     [file_sink a st0; console_sink a st0])
    else [].
Proof.
  intros st0 k. subst st0 k. unfold log. cbn [sink_out].
  rewrite init_sink_out, init_isEnabledFor, callHandlers_fresh.
  reflexivity.
Qed.

End WrapperRouting.

(** X4: in a process whose first wrapper was constructed with only a name,
    [debug], [info] and [warning] are emitted by the file handler alone and
    [error] and [critical] by the file handler and then the console
    handler; with arbitrary constructor arguments a call at level [lv] is
    emitted by each of the two handlers whose own level is at most [lv],
    and by none when [lv] is below DEBUG, the level of the logger. *)
Theorem wrapper_methods_route_by_level
    (name : string) (a : LoggingWrapper.InitArgs) (clk : nat → string)
    (lv : Z) (msg : string) :
  let st0 := fresh_logging clk in
  let k := Logging.logger_key name in
  let st1 := (LoggingWrapper.init name LoggingWrapper.only_name st0).2 in
  let fh := LoggingWrapper.file_sink LoggingWrapper.only_name st0 in
  let ch := LoggingWrapper.console_sink LoggingWrapper.only_name st0 in
  let at_level l := Logging.mkRecord k l msg in
  Logging.sink_out (LoggingWrapper.debug k msg st1)
    = [(fh, at_level Logging.DEBUG)]
  ∧ Logging.sink_out (LoggingWrapper.info k msg st1)
    = [(fh, at_level Logging.INFO)]
  ∧ Logging.sink_out (LoggingWrapper.warning k msg st1)
    = [(fh, at_level Logging.WARNING)]
  ∧ Logging.sink_out (LoggingWrapper.error k msg st1)
    = [(fh, at_level Logging.ERROR); (ch, at_level Logging.ERROR)]
  ∧ Logging.sink_out (LoggingWrapper.critical k msg st1)
    = [(fh, at_level Logging.CRITICAL); (ch, at_level Logging.CRITICAL)]
  ∧ Logging.sink_out
      (Logging.log k lv msg (LoggingWrapper.init name a st0).2)
    = (if bool_decide (Logging.DEBUG ≤ lv)
       then map (λ h, (h, at_level lv))
              (filter (λ h, Logging.h_level h ≤ lv)
                 [LoggingWrapper.file_sink a st0;
                  LoggingWrapper.console_sink a st0])
       else []).
Proof.
  intros st0 k st1 fh ch at_level. subst st0 k st1 fh ch at_level.
  unfold LoggingWrapper.debug, LoggingWrapper.info, LoggingWrapper.warning,
    LoggingWrapper.error, LoggingWrapper.critical, Logging.debug,
    Logging.info, Logging.warning, Logging.error, Logging.critical.
  split_and!; by rewrite log_after_fresh_init.
Qed.




(** X7: the name of the log file is made of the log directory and the clock
    reading only, not of the logger name: when two wrappers with different
    names are constructed for loggers without handlers, with the same
    directory and at the same clock reading, each logger gets its own two
    handler objects and the two file handlers write to the same file. *)
Theorem wrappers_share_log_file
    (n1 n2 : string) (a1 a2 : LoggingWrapper.InitArgs)
    (st : Logging.LogState)
    (Hnames : Logging.logger_key n1 ≠ Logging.logger_key n2)
    (Hnone1 : Logging.lg_handlers
                (Logging.logger_at (Logging.loggers st)
                                   (Logging.logger_key n1)) = [])
    (Hnone2 : Logging.lg_handlers
                (Logging.logger_at (Logging.loggers st)
                                   (Logging.logger_key n2)) = [])
    (Hdir : LoggingWrapper.log_dir a1 = LoggingWrapper.log_dir a2)
    (Hclock : Logging.clock st (Logging.ticks st)
              = Logging.clock st (S (Logging.ticks st))) :
  let st1 := (LoggingWrapper.init n1 a1 st).2 in
  let st2 := (LoggingWrapper.init n2 a2 st1).2 in
  let fh1 := LoggingWrapper.file_sink a1 st in
  let fh2 := LoggingWrapper.file_sink a2 st1 in
  Logging.lg_handlers
    (Logging.logger_at (Logging.loggers st2) (Logging.logger_key n1))
  = [fh1; LoggingWrapper.console_sink a1 st]
  ∧ Logging.lg_handlers
      (Logging.logger_at (Logging.loggers st2) (Logging.logger_key n2))
    = [fh2; LoggingWrapper.console_sink a2 st1]
  ∧ Logging.h_id fh1 ≠ Logging.h_id fh2
  ∧ sink_file fh1 = sink_file fh2
  ∧ is_Some (sink_file fh1).
Proof.
  intros st1 st2 fh1 fh2. subst st2 fh1 fh2.
  assert (Hst1 : Logging.loggers st1
    = <[Logging.logger_key n1 :=
          Logging.mkLogger Logging.DEBUG
            [LoggingWrapper.file_sink a1 st; LoggingWrapper.console_sink a1 st]
            (Logging.lg_propagate
               (Logging.logger_at (Logging.loggers st)
                                  (Logging.logger_key n1)))]>
        (Logging.loggers st)).
  { subst st1. rewrite init_closed. cbn [snd Logging.loggers].
    by rewrite (bool_decide_eq_true_2 _ Hnone1). }
  assert (Hnone2' : Logging.lg_handlers
            (Logging.logger_at (Logging.loggers st1)
                               (Logging.logger_key n2)) = []).
  { rewrite Hst1, logger_at_insert_ne by done. exact Hnone2. }
  assert (Hclk : Logging.clock st1 (Logging.ticks st1)
                 = Logging.clock st (Logging.ticks st)).
  { subst st1. rewrite init_closed. cbn. by rewrite Hclock. }
  assert (Hid : Logging.next_id st1 = S (S (Logging.next_id st))).
  { subst st1. by rewrite init_closed. }
  split_and!.
  - rewrite (init_closed n2 a2 st1). cbn [snd Logging.loggers].
    rewrite logger_at_insert_ne by done. rewrite Hst1.
    by rewrite logger_at_insert.
  - rewrite (init_closed n2 a2 st1). cbn [snd Logging.loggers].
    rewrite logger_at_insert. cbn [Logging.lg_handlers].
    by rewrite (bool_decide_eq_true_2 _ Hnone2').
  - cbn. rewrite Hid. lia.
  - unfold sink_file, LoggingWrapper.file_sink. cbn.
    by rewrite Hclk, Hdir.
  - unfold sink_file, LoggingWrapper.file_sink. cbn. eauto.
Qed.

Lemma wrappers_share_log_file_witness :
  let st := fresh_logging (λ _, "20240101_120000") in
  let st2 :=
    (LoggingWrapper.init "__main__" LoggingWrapper.only_name
       (LoggingWrapper.init "utils.env_manager" LoggingWrapper.only_name st).2).2 in
  sink_file <$> Logging.lg_handlers
                  (Logging.logger_at (Logging.loggers st2) "utils.env_manager")
  = [Some "logs/log_20240101_120000.log"; None]
  ∧ sink_file <$> Logging.lg_handlers
                    (Logging.logger_at (Logging.loggers st2) "__main__")
    = [Some "logs/log_20240101_120000.log"; None].
Proof.
  intros st st2.
  pose proof (wrappers_share_log_file "utils.env_manager" "__main__"
                LoggingWrapper.only_name LoggingWrapper.only_name st) as H.
  cbn zeta in H.
  destruct H as (H1 & H2 & _); try (vm_compute; reflexivity).
  - vm_compute. discriminate.
  - change (Logging.logger_key "utils.env_manager")
      with "utils.env_manager" in H1.
    change (Logging.logger_key "__main__") with "__main__" in H2.
    subst st2. rewrite H1, H2. split; vm_compute; reflexivity.
Defined.

(* ===================================================================== *)
(** * EnvManager: further properties                                      *)
(* ===================================================================== *)

(** X8: when [load_env] runs in the state UNLOADED and [load_dotenv]
    reports that it found variables, the call returns, the environment is
    the one the loader left, the file was read once, the LOADED flag is set
    and the only log call is the INFO record that names the file. *)
Theorem load_env_success
    (p : string) (w : World) (env' : gmap string string)
    (Hunloaded : _env_loaded w = false)
    (Hfound : dotenv_fs w p (environ w) = DotenvReturn true env') :
  let w' := (EnvManager.load_env p w).2 in
  (EnvManager.load_env p w).1 = Return tt
  ∧ environ w' = env'
  ∧ dotenv_reads w' = dotenv_reads w ++ [p]
  ∧ _env_loaded w' = true
  ∧ _instance w' = _instance w
  ∧ Logging.log_calls (logging w')
    = Logging.log_calls (logging w)
      ++ [Logging.mkRecord EnvManager.logger Logging.INFO
            ("Environment variables loaded from " +:+ p)].
Proof.
  intros w'. subst w'.
  rewrite load_env_unloaded by done. rewrite Hfound. by cbn.
Qed.

Lemma load_env_success_witness :
  let w := started_world {[ "K" := "shell" ]}
             (dotenv_of_files {[ "conf.env" := {[ "K" := "file"; "L" := "1" ]} ]}) in
  let w' := (EnvManager.load_env "conf.env" w).2 in
  (EnvManager.load_env "conf.env" w).1 = Return tt
  ∧ environ w' = {[ "K" := "shell" ]} ∪ {[ "K" := "file"; "L" := "1" ]}
  ∧ _env_loaded w' = true.
Proof.
  intros w w'.
  assert (Hun : _env_loaded w = false) by (vm_compute; reflexivity).
  assert (Hf : dotenv_fs w "conf.env" (environ w)
               = DotenvReturn true
                   ({[ "K" := "shell" ]} ∪ {[ "K" := "file"; "L" := "1" ]}))
    by (vm_compute; reflexivity).
  pose proof (load_env_success "conf.env" w _ Hun Hf) as (Hr & He & _ & Hl & _).
  split_and!; [exact Hr | exact He | exact Hl].
Defined.

(** X9: a variable that is in the environment is returned as stored,
    whatever default is passed; nothing is logged and the process state is
    unchanged. *)
Theorem get_env_variable_present
    (name v : string) (d : option string) (w : World)
    (Hpresent : environ w !! name = Some v) :
  EnvManager.get_env_variable name d w = (Return (Some v), w).
Proof.
  unfold EnvManager.get_env_variable, try_except, bind, EnvManager.getenv,
    ret, with_logging.
  rewrite Hpresent. cbn. by destruct w.
Qed.

Lemma get_env_variable_present_witness :
  let w := started_world {[ "NUMBER1" := "7" ]} (dotenv_of_files ∅) in
  EnvManager.get_env_variable "NUMBER1" (Some "10") w = (Return (Some "7"), w)
  ∧ EnvManager.get_env_variable "NUMBER1" None w = (Return (Some "7"), w).
Proof.
  intros w.
  assert (Hp : environ w !! "NUMBER1" = Some "7") by (vm_compute; reflexivity).
  split; apply get_env_variable_present; exact Hp.
Defined.

(** X10: an exception of [load_dotenv] that is not of class [Exception]
    (such as [KeyboardInterrupt]) leaves [load_env] as it is: it is not
    wrapped in a [RuntimeError], nothing is logged, and the LOADED flag
    stays unset. *)
Theorem load_env_passes_base_exception
    (p : string) (w : World) (e : PyExc) (env' : gmap string string)
    (Hunloaded : _env_loaded w = false)
    (Hraise : dotenv_fs w p (environ w) = DotenvRaise e env')
    (Hbase : is_Exception e = false) :
  let w' := (EnvManager.load_env p w).2 in
  (EnvManager.load_env p w).1 = Raise e
  ∧ _env_loaded w' = false
  ∧ logging w' = logging w
  ∧ dotenv_reads w' = dotenv_reads w ++ [p].
Proof.
  intros w'. subst w'.
  rewrite load_env_unloaded by done. rewrite Hraise, Hbase. by cbn.
Qed.

Lemma load_env_passes_base_exception_witness :
  let e := BaseOnly "KeyboardInterrupt" EmptyString in
  let w := started_world ∅ (dotenv_failing e) in
  (EnvManager.load_env ".env" w).1 = Raise e
  ∧ logging (EnvManager.load_env ".env" w).2 = logging w.
Proof.
  intros e w.
  assert (Hun : _env_loaded w = false) by (vm_compute; reflexivity).
  assert (Hr : dotenv_fs w ".env" (environ w) = DotenvRaise e (environ w))
    by reflexivity.
  pose proof (load_env_passes_base_exception ".env" w e _ Hun Hr eq_refl)
    as (Hres & _ & Hlog & _).
  split; [exact Hres | exact Hlog].
Defined.

Section LaterConstructions.
Import EnvManager.

(** A construction when the instance exists and nothing is loaded yet. *)
Lemma construct_instance_unloaded (a : CallArgs) (w : World) (o : nat) :
  _instance w = Some o →
  _env_loaded w = false →
  construct a w
  = match bind_init a with
    | Raise e => (Raise e, w)
    | Return p =>
        match load_env p w with
        | (Return _, w') => (Return o, w')
        | (Raise e, w') => (Raise e, w')
        end
    end.
Proof.
  intros Hi Hun. unfold construct, bind, new, init, raise, ret.
  rewrite Hi. destruct (bind_init a) as [p|e]; [|done].
  rewrite Hun. cbn [negb]. by destruct (load_env p w) as [[[]|e] w'].
Qed.

(** The first construction without arguments. *)
Lemma construct_first_no_args (w : World) :
  _instance w = None →
  _env_loaded w = false →
  construct no_args w
  = match load_env ".env"
            (mkWorld (environ w) (dotenv_fs w) (dotenv_reads w)
                     (Some (heap_next w)) (_env_loaded w) (S (heap_next w))
                     (logging w)) with
    | (Return _, w') => (Return (heap_next w), w')
    | (Raise e, w') => (Raise e, w')
    end.
Proof.
  intros Hi Hun. unfold construct, bind, new, object_new, set_instance, init,
    raise, ret.
  rewrite Hi. cbn. rewrite Hun. cbn [negb].
  by destruct (load_env ".env" _) as [[[]|e] w'].
Qed.

End LaterConstructions.

(** X11: when the first construction fails because [load_dotenv] raises,
    the caller gets the [RuntimeError] and no object, but the class has
    already stored the new instance, and the LOADED flag is unset. *)
Theorem failed_first_construction_keeps_instance
    (w : World) (e : PyExc) (env' : gmap string string)
    (Hfirst : _instance w = None)
    (Hunloaded : _env_loaded w = false)
    (Hraise : dotenv_fs w ".env" (environ w) = DotenvRaise e env')
    (Hexc : is_Exception e = true) :
  let w' := (EnvManager.construct no_args w).2 in
  (EnvManager.construct no_args w).1
  = Raise (RuntimeError "Failed to load environment variables from .env" e)
  ∧ _instance w' = Some (heap_next w)
  ∧ _env_loaded w' = false
  ∧ dotenv_reads w' = dotenv_reads w ++ [".env"].
Proof.
  intros w'. subst w'. rewrite construct_first_no_args by done.
  rewrite load_env_unloaded by done. cbn. rewrite Hraise, Hexc. by cbn.
Qed.

Lemma failed_first_construction_keeps_instance_witness :
  let e := OtherException "PermissionError" "Permission denied: '.env'" in
  let w := started_world ∅ (dotenv_failing e) in
  (EnvManager.construct no_args w).1
  = Raise (RuntimeError "Failed to load environment variables from .env" e)
  ∧ _instance (EnvManager.construct no_args w).2 = Some 1%nat.
Proof.
  intros e w.
  pose proof (failed_first_construction_keeps_instance w e (environ w)
                eq_refl eq_refl eq_refl eq_refl) as (Hres & Hinst & _).
  split; [exact Hres | exact Hinst].
Defined.

(** X12: once the class holds an instance and nothing is loaded yet (an
    earlier load failed), a construction with a path does take the path:
    positional or as keyword [file_path], it runs [load_env] on that path,
    and on the default [.env] without arguments; it returns the stored
    instance when the load returns and passes the exception on when it
    raises. *)
Theorem later_construction_loads_given_path
    (w : World) (o : nat) (p : string)
    (Hinst : _instance w = Some o)
    (Hunloaded : _env_loaded w = false) :
  let outcome (r : Result unit * World) : Result nat * World :=
    match r with
    | (Return _, w') => (Return o, w')
    | (Raise e, w') => (Raise e, w')
    end in
  EnvManager.construct (mkArgs [p] []) w = outcome (EnvManager.load_env p w)
  ∧ EnvManager.construct (mkArgs [] [("file_path", p)]) w
    = outcome (EnvManager.load_env p w)
  ∧ EnvManager.construct no_args w = outcome (EnvManager.load_env ".env" w).
Proof.
  intros outcome. subst outcome. cbn beta.
  by rewrite !(construct_instance_unloaded _ w o Hinst Hunloaded).
Qed.

Lemma later_construction_loads_given_path_witness :
  let broken := dotenv_failing (OtherException "OSError" "I/O error") in
  let repaired := dotenv_of_files {[ "custom.env" := {[ "K" := "V" ]} ]} in
  let w1 := (EnvManager.construct no_args (started_world ∅ broken)).2 in
  let w2 := (EnvManager.construct (mkArgs ["custom.env"] [])
               (with_files repaired w1)).2 in
  (EnvManager.construct (mkArgs ["custom.env"] []) (with_files repaired w1)).1
  = Return 1%nat
  ∧ environ w2 !! "K" = Some "V"
  ∧ dotenv_reads w2 = [".env"; "custom.env"]
  ∧ _env_loaded w2 = true.
Proof.
  intros broken repaired w1 w2. subst w2.
  assert (Hi : _instance (with_files repaired w1) = Some 1%nat)
    by (vm_compute; reflexivity).
  assert (Hu : _env_loaded (with_files repaired w1) = false)
    by (vm_compute; reflexivity).
  pose proof (later_construction_loads_given_path _ _ "custom.env" Hi Hu)
    as (Hpos & _).
  cbn zeta beta in Hpos. rewrite Hpos.
  split_and!; vm_compute; reflexivity.
Defined.

Section Sequences.
Import EnvManager.

Lemma load_env_fs (p : string) (w : World) :
  dotenv_fs (load_env p w).2 = dotenv_fs w.
Proof.
  destruct (_env_loaded w) eqn:Hl.
  - by rewrite load_env_loaded.
  - rewrite load_env_unloaded by done.
    destruct (dotenv_fs w p (environ w)) as [b env'|e env'];
      [done | by destruct (is_Exception e)].
Qed.

Lemma construct_fs (a : CallArgs) (w : World) :
  dotenv_fs (construct a w).2 = dotenv_fs w.
Proof.
  destruct (_env_loaded w) eqn:Hl.
  - rewrite construct_loaded by done.
    destruct (_instance w); [by destruct (bind_init a)|].
    by destruct (excess_args a).
  - destruct (_instance w) as [o|] eqn:Hi.
    + rewrite (construct_instance_unloaded a w o) by done.
      destruct (bind_init a) as [p|e]; [|done].
      pose proof (load_env_fs p w) as Hfs.
      by destruct (load_env p w) as [[[]|e] w'].
    + destruct (excess_args a) eqn:Hex.
      * by rewrite construct_first_excess.
      * apply no_excess_args in Hex as ->.
        rewrite construct_first_no_args by done.
        pose proof (load_env_fs ".env"
          (mkWorld (environ w) (dotenv_fs w) (dotenv_reads w)
                   (Some (heap_next w)) (_env_loaded w) (S (heap_next w))
                   (logging w))) as Hfs.
        by destruct (load_env ".env" _) as [[[]|e] w'].
Qed.

(** In the state LOADED a construction changes neither the environment,
    nor the list of reads, nor the flag. *)
Lemma construct_loaded_frame (a : CallArgs) (w : World) :
  _env_loaded w = true →
  environ (construct a w).2 = environ w
  ∧ dotenv_reads (construct a w).2 = dotenv_reads w
  ∧ _env_loaded (construct a w).2 = true.
Proof.
  intros Hl. rewrite construct_loaded by done.
  destruct (_instance w); [by destruct (bind_init a)|].
  by destruct (excess_args a).
Qed.

Lemma constructions_loaded_frame (reqs : list CallArgs) :
  ∀ w, _env_loaded w = true →
       environ (constructions reqs w).2 = environ w
       ∧ dotenv_reads (constructions reqs w).2 = dotenv_reads w
       ∧ _env_loaded (constructions reqs w).2 = true.
Proof.
  induction reqs as [|a rest IH]; intros w Hl; [done|].
  rewrite constructions_cons. cbn [snd].
  destruct (construct_loaded_frame a w Hl) as (He & Hr & Hl').
  destruct (IH _ Hl') as (He' & Hr' & Hl'').
  by rewrite He', Hr', He, Hr.
Qed.

(** [load_env] in the state UNLOADED with a loader that returns. *)
Lemma load_env_returning (p : string) (w : World) :
  _env_loaded w = false →
  (∃ b env', dotenv_fs w p (environ w) = DotenvReturn b env') →
  ∃ w', load_env p w = (Return tt, w')
        ∧ dotenv_reads w' = dotenv_reads w ++ [p]
        ∧ _env_loaded w' = true.
Proof.
  intros Hun (b & env' & Hfs). rewrite load_env_unloaded by done.
  rewrite Hfs. eauto.
Qed.

(** One construction in the state UNLOADED, with a loader that returns on
    every file: either no file is read and the state stays UNLOADED, or one
    file is read and the state is LOADED. *)
Lemma construct_unloaded_step (a : CallArgs) (w : World) :
  _env_loaded w = false →
  (∀ p env, ∃ b env', dotenv_fs w p env = DotenvReturn b env') →
  (dotenv_reads (construct a w).2 = dotenv_reads w
   ∧ _env_loaded (construct a w).2 = false)
  ∨ (∃ p, dotenv_reads (construct a w).2 = dotenv_reads w ++ [p]
          ∧ _env_loaded (construct a w).2 = true).
Proof.
  intros Hun Hret.
  destruct (_instance w) as [o|] eqn:Hi.
  - rewrite (construct_instance_unloaded a w o) by done.
    destruct (bind_init a) as [p|e]; [|by left].
    destruct (load_env_returning p w Hun (Hret p _)) as (w' & -> & Hr & Hl).
    right. by exists p.
  - destruct (excess_args a) eqn:Hex.
    + rewrite construct_first_excess by done. by left.
    + apply no_excess_args in Hex as ->.
      rewrite construct_first_no_args by done.
      edestruct (load_env_returning ".env") as (w' & -> & Hr & Hl);
        [| apply (Hret ".env") |]; [done|].
      right. by exists ".env".
Qed.

End Sequences.

(** X13: the environment is loaded at most once.  For every sequence of
    construction requests: from the state LOADED, the environment, the list
    of files read and the flag are the same at the end; from any state in
    which the loader returns on every file, at most one file is read in the
    whole sequence, and if one was read the state is LOADED at the end. *)
Theorem environment_loaded_at_most_once
    (reqs : list CallArgs) (w : World) :
  let w' := (EnvManager.constructions reqs w).2 in
  (_env_loaded w = true →
     environ w' = environ w
     ∧ dotenv_reads w' = dotenv_reads w
     ∧ _env_loaded w' = true)
  ∧ ((∀ p env, ∃ b env', dotenv_fs w p env = DotenvReturn b env') →
     (dotenv_reads w' = dotenv_reads w ∧ _env_loaded w' = _env_loaded w)
     ∨ (∃ p, dotenv_reads w' = dotenv_reads w ++ [p]
             ∧ _env_loaded w' = true)).
Proof.
  intros w'. subst w'. split; [apply constructions_loaded_frame|].
  revert w. induction reqs as [|a rest IH]; intros w Hret; [by left|].
  rewrite constructions_cons. cbn [snd].
  destruct (_env_loaded w) eqn:Hl.
  - left. destruct (constructions_loaded_frame (a :: rest) w Hl)
      as (_ & Hr & Hl').
    rewrite constructions_cons in Hr, Hl'. by cbn [snd] in Hr, Hl'.
  - assert (Hret' : ∀ p env, ∃ b env',
              dotenv_fs (EnvManager.construct a w).2 p env
              = DotenvReturn b env')
      by (intros p env; rewrite construct_fs; apply Hret).
    destruct (construct_unloaded_step a w Hl Hret) as [[Hr Hu]|(p & Hr & Hl')].
    + destruct (IH _ Hret') as [[Hr' Hu']|(p & Hr' & Hl')].
      * left. by rewrite Hr', Hu', Hr, Hu.
      * right. exists p. by rewrite Hr', Hr.
    + right. exists p.
      destruct (constructions_loaded_frame rest _ Hl') as (_ & Hr' & Hl'').
      by rewrite Hr', Hr.
Qed.

Lemma environment_loaded_at_most_once_witness :
  let fs := dotenv_of_files {[ ".env" := {[ "K" := "V" ]};
                               "b.env" := {[ "K" := "W" ]} ]} in
  let reqs := [mkArgs ["a.env"] []; no_args; mkArgs ["b.env"] []; no_args] in
  let w' := (EnvManager.constructions reqs (started_world ∅ fs)).2 in
  dotenv_reads w' = [".env"] ∧ environ w' !! "K" = Some "V".
Proof.
  intros fs reqs w'.
  pose proof (environment_loaded_at_most_once reqs (started_world ∅ fs))
    as [_ Honce].
  cbn zeta in Honce.
  assert (Hret : ∀ p env, ∃ b env',
            dotenv_fs (started_world ∅ fs) p env = DotenvReturn b env').
  { intros p env.
    change (dotenv_fs (started_world ∅ fs)) with fs.
    subst fs. unfold dotenv_of_files. case_match; eauto. }
  destruct (Honce Hret) as [[Hr _]|(p & Hr & _)].
  - exfalso. revert Hr. vm_compute. discriminate.
  - subst w'. split; vm_compute; reflexivity.
Defined.

(* ===================================================================== *)
(** * The example script: further properties                              *)
(* ===================================================================== *)

Section ScriptRuns.
Import EnvManager ExampleScript.

(** The script's first statement changes the logging state only, and adds
    no log call. *)
Lemma script_logger_step (name : string) (w : World) :
  ∃ st', with_logging
           (λ st, snd (LoggingWrapper.init name LoggingWrapper.only_name st)) w
         = (Return tt,
            mkWorld (environ w) (dotenv_fs w) (dotenv_reads w) (_instance w)
                    (_env_loaded w) (heap_next w) st')
         ∧ Logging.log_calls st' = Logging.log_calls (logging w).
Proof.
  eexists. split; [reflexivity|]. by rewrite init_closed.
Qed.

(** The module-level statements of the script in a process that has no
    manager yet, by the outcome of [load_dotenv] on [.env]. *)
Lemma import_module_first (name : string) (w : World) :
  _instance w = None →
  _env_loaded w = false →
  ∃ st',
    Logging.log_calls st' = Logging.log_calls (logging w)
    ∧ import_module name w
      = match dotenv_fs w ".env" (environ w) with
        | DotenvReturn found env' =>
            (Return (heap_next w),
             mkWorld env' (dotenv_fs w) (dotenv_reads w ++ [".env"])
               (Some (heap_next w)) true (S (heap_next w))
               ((if found
                 then Logging.info logger
                        "Environment variables loaded from .env"
                 else Logging.warning logger
                        "No environment variables found in .env") st'))
        | DotenvRaise e env' =>
            if is_Exception e
            then (Raise (RuntimeError
                           "Failed to load environment variables from .env" e),
                  mkWorld env' (dotenv_fs w) (dotenv_reads w ++ [".env"])
                    (Some (heap_next w)) false (S (heap_next w))
                    (Logging.error logger
                       ("Error loading environment variables from .env: "
                        +:+ exc_str e) st'))
            else (Raise e,
                  mkWorld env' (dotenv_fs w) (dotenv_reads w ++ [".env"])
                    (Some (heap_next w)) false (S (heap_next w)) st')
        end.
Proof.
  intros Hi Hun. destruct (script_logger_step name w) as (st' & Hstep & Hlog).
  exists st'. split; [done|].
  unfold import_module. rewrite (bind_return _ _ _ _ _ Hstep).
  rewrite construct_first_no_args by done.
  rewrite load_env_unloaded by done. cbn.
  destruct (dotenv_fs w ".env" (environ w)) as [found env'|e env'];
    [by destruct found | by destruct (is_Exception e)].
Qed.

End ScriptRuns.

(** X14: the script constructs its manager at module level, outside the
    [try] of [do_something]: when the process has no manager yet and
    [load_dotenv] raises on [.env], running the script raises the
    [RuntimeError] of [load_env]; [do_something] is never reached and the
    only log call is the error record of the environment manager. *)
Theorem script_import_propagates_load_failure
    (name : string) (w : World) (e : PyExc) (env' : gmap string string)
    (Hfirst : _instance w = None)
    (Hunloaded : _env_loaded w = false)
    (Hraise : dotenv_fs w ".env" (environ w) = DotenvRaise e env')
    (Hexc : is_Exception e = true) :
  let failure :=
    RuntimeError "Failed to load environment variables from .env" e in
  (ExampleScript.import_module name w).1 = Raise failure
  ∧ (run_example_script name w).1 = Raise failure
  ∧ logged (run_example_script name) w
    = [Logging.mkRecord EnvManager.logger Logging.ERROR
         ("Error loading environment variables from .env: " +:+ exc_str e)].
Proof.
  intros failure. subst failure.
  destruct (import_module_first name w Hfirst Hunloaded)
    as (st' & Hlog & Himp).
  rewrite Hraise, Hexc in Himp. lazy beta iota in Himp.
  unfold run_example_script, logged.
  rewrite (bind_raise _ _ _ _ _ Himp), Himp. cbn [fst snd logging].
  split_and!; [done|done|].
  cbn [Logging.error Logging.log Logging.log_calls].
  by rewrite Hlog, drop_app_length.
Qed.

Lemma script_import_propagates_load_failure_witness :
  let e := OtherException "UnicodeDecodeError" "invalid start byte" in
  let w := started_world {[ "NUMBER1" := "7" ]} (dotenv_failing e) in
  (run_example_script "__main__" w).1
  = Raise (RuntimeError "Failed to load environment variables from .env" e)
  ∧ logged (run_example_script "__main__") w
    = [Logging.mkRecord "utils.env_manager" Logging.ERROR
         "Error loading environment variables from .env: invalid start byte"].
Proof.
  intros e w.
  pose proof (script_import_propagates_load_failure "__main__" w e (environ w)
                eq_refl eq_refl eq_refl eq_refl) as (_ & Hrun & Hlog).
  split; [exact Hrun | exact Hlog].
Defined.



Section ScriptSinks.
Import EnvManager ExampleScript.


End ScriptSinks.

Section ScriptSinksRun.
Import EnvManager ExampleScript.



End ScriptSinksRun.

Section SinkComputation.
Import Logging LoggingWrapper.

Lemma started_logging_at (clk : nat → string) (env : gmap string string)
    (fs : string → gmap string string → DotenvOutcome) :
  logging (started_world_at clk env fs)
  = (init "utils.env_manager" only_name (fresh_logging clk)).2.
Proof. reflexivity. Qed.

Lemma log_loggers (k : string) (lv : Z) (msg : string) (st : LogState) :
  loggers (log k lv msg st) = loggers st.
Proof. reflexivity. Qed.

Lemma log_sink_out_eq (k : string) (lv : Z) (msg : string) (st : LogState) :
  sink_out (log k lv msg st)
  = sink_out st
    ++ (if isEnabledFor (loggers st) k lv
        then map (λ h, (h, mkRecord k lv msg))
                 (callHandlers (loggers st) k (mkRecord k lv msg))
        else []).
Proof. reflexivity. Qed.

End SinkComputation.

(** Emitted records by evaluation of the registry: the log calls are
    replaced by their effect on [sink_out], the states by the fields that
    are read from them, and what is left is computed. *)
Ltac sinks_by_computation :=
  unfold Logging.info, Logging.warning, Logging.error;
  rewrite ?log_sink_out_eq, ?log_loggers;
  unfold LoggingWrapper.file_sink, LoggingWrapper.console_sink;
  cbn [fst snd Logging.loggers Logging.sink_out Logging.clock Logging.ticks
       Logging.next_id fresh_logging];
  vm_compute; reflexivity.



(** X17: in a fresh process after [import utils.env_manager], the records
    of the environment manager reach the handlers of its own logger as
    follows: the warning for a variable that is absent and has no default,
    and the warning that a file defined nothing, are emitted by the file
    handler only; the error of a failed load is emitted by the file handler
    and by the console handler. *)
Theorem manager_records_by_sink
    (clk : nat → string) (env : gmap string string)
    (fs : string → gmap string string → DotenvOutcome) :
  let w := started_world_at clk env fs in
  let fh :=
    LoggingWrapper.file_sink LoggingWrapper.only_name (fresh_logging clk) in
  let ch :=
    LoggingWrapper.console_sink LoggingWrapper.only_name (fresh_logging clk) in
  (∀ name, env !! name = None →
     emitted (EnvManager.get_env_variable name None) w
     = [(fh, Logging.mkRecord "utils.env_manager" Logging.WARNING
               ("Environment variable " +:+ name
                +:+ " not found, using default value: None"))])
  ∧ (∀ p env', fs p env = DotenvReturn false env' →
     emitted (EnvManager.load_env p) w
     = [(fh, Logging.mkRecord "utils.env_manager" Logging.WARNING
               ("No environment variables found in " +:+ p))])
  ∧ (∀ p e env', fs p env = DotenvRaise e env' → is_Exception e = true →
     let record :=
       Logging.mkRecord "utils.env_manager" Logging.ERROR
         ("Error loading environment variables from " +:+ p +:+ ": "
          +:+ exc_str e) in
     emitted (EnvManager.load_env p) w = [(fh, record); (ch, record)]).
Proof.
  intros w fh ch. subst fh ch. split_and!.
  - intros name Habsent. unfold emitted, EnvManager.get_env_variable,
      try_except, bind, EnvManager.getenv, ret, with_logging.
    change (environ w) with env. rewrite Habsent.
    cbn [fst snd logging str_opt].
    subst w. rewrite started_logging_at, !init_closed.
    sinks_by_computation.
  - intros p env' Hnone. unfold emitted.
    rewrite load_env_unloaded by reflexivity.
    change (dotenv_fs w p (environ w)) with (fs p env). rewrite Hnone.
    cbn [fst snd logging].
    generalize ("No environment variables found in " +:+ p).
    intros m. subst w. rewrite started_logging_at, !init_closed.
    sinks_by_computation.
  - intros p e env' Hraise Hexc record. subst record. unfold emitted.
    rewrite load_env_unloaded by reflexivity.
    change (dotenv_fs w p (environ w)) with (fs p env).
    rewrite Hraise, Hexc. cbn [fst snd logging].
    generalize ("Error loading environment variables from " +:+ p +:+ ": "
                +:+ exc_str e).
    intros m. subst w. rewrite started_logging_at, !init_closed.
    sinks_by_computation.
Qed.

Lemma manager_records_by_sink_witness :
  let e := OtherException "OSError" "I/O error" in
  let w := started_world_at clock0 ∅ (dotenv_failing e) in
  Logging.h_kind ∘ fst <$> emitted (EnvManager.get_env_variable "HOME" None) w
  = [Logging.RotatingFile "logs/log_20240101_000000.log" 5242880 5]
  ∧ Logging.h_kind ∘ fst <$> emitted (EnvManager.load_env ".env") w
    = [Logging.RotatingFile "logs/log_20240101_000000.log" 5242880 5;
       Logging.Stream].
Proof.
  intros e w.
  pose proof (manager_records_by_sink clock0 ∅ (dotenv_failing e)) as H.
  cbn zeta in H. destruct H as (Hmissing & _ & Hfail).
  subst w. rewrite (Hmissing "HOME") by reflexivity.
  rewrite (Hfail ".env" e ∅) by reflexivity.
  split; vm_compute; reflexivity.
Defined.
